(** * Worker-process log ingestion (crossbar/controller/processtypes.py)

    A shallow embedding of [WorkerProcess] and of its methods [__init__],
    [getlog], [_dump_remaining_log] and [log], followed by the properties
    of the log-ingestion subsystem that were checked against it.

    Conventions.
    - Python 3 semantics is used for the builtins ([bytes.decode], [repr],
      [str.format], [str.split], [str.strip], [dict.pop], [deque]).
    - A [str] is a list of Unicode code points ([text]); [bytes] is a list
      of [Byte.byte].
    - A method is a computation in the monad [M]: it threads the [World]
      (the worker's attributes, the sequence objects of the heap, what the
      logger received and what was published) and either finishes or
      raises.  What was mutated before an exception stays mutated.
    - The wire constants and helpers imported from [crossbar._logging]
      ([cb_logging_aware], [record_separator], [escape_formatting]) and the
      library functions [json.loads] and [repr] on [str] are parameters of
      the section [Worker]. *)

From Stdlib Require Import ZArith NArith Strings.String Strings.Ascii Strings.Byte DecimalString.
From stdpp Require Import base decidable option numbers list.

Local Open Scope Z_scope.

(** ** Text and bytes *)

Abbreviation char := N.
Abbreviation text := (list N).

Definition txt (s : string) : text :=
  map N_of_ascii (list_ascii_of_string s).

Definition str_lower_hex (n : N) : char :=
  if (n <? 10)%N then (48 + n)%N else (87 + n)%N.

(** [s.ljust(w)] and [s.rjust(w)], the padding of ["{:<w}"] and ["{:>w}"]. *)
Definition ljust (w : nat) (s : text) : text :=
  s ++ replicate (w - length s)%nat 32%N.

Definition rjust (w : nat) (s : text) : text :=
  replicate (w - length s)%nat 32%N ++ s.

(** [str(z)] for an [int]. *)
Definition str_of_int (z : Z) : text :=
  txt (NilZero.string_of_int (Z.to_int z)).

(** [sep in s] for a one-character separator. *)
Fixpoint str_contains (sep : char) (s : text) : bool :=
  match s with
  | [] => false
  | c :: s' => if decide (c = sep) then true else str_contains sep s'
  end.

(** [s.split(sep, 1)] for a one-character separator that occurs in [s]:
    the text before the first occurrence and the text after it.  Without
    an occurrence Python returns the one-element list [[s]]; callers below
    test [str_contains] first, as the source does. *)
Fixpoint str_split1 (sep : char) (s : text) : text * text :=
  match s with
  | [] => ([], [])
  | c :: s' =>
      if decide (c = sep) then ([], s')
      else let '(hd, tl) := str_split1 sep s' in (c :: hd, tl)
  end.

(** [s.startswith(p)], returning what follows the prefix. *)
Fixpoint strip_prefix (p s : text) : option text :=
  match p, s with
  | [], _ => Some s
  | a :: p', b :: s' => if decide (a = b) then strip_prefix p' s' else None
  | _ :: _, [] => None
  end.

(** [s.split(sep)] for a separator of any length.  [skip] counts the
    characters of a matched separator still to be passed over and [cur]
    holds, reversed, the characters of the segment being read.  Python
    raises [ValueError] on an empty separator; the only separator used
    below is [os.linesep], which is never empty. *)
Fixpoint str_split_aux (sep : text) (skip : nat) (cur : text) (s : text)
  : list text :=
  match s with
  | [] => [rev cur]
  | c :: s' =>
      match skip with
      | S k => str_split_aux sep k cur s'
      | O =>
          match strip_prefix sep s with
          | Some _ => rev cur :: str_split_aux sep (length sep - 1) [] s'
          | None => str_split_aux sep 0 (c :: cur) s'
          end
      end
  end.

Definition str_split (sep : text) (s : text) : list text :=
  str_split_aux sep 0 [] s.

(** [str.isspace] on one character: the code points with the Unicode
    property White_Space or bidirectional type WS, B or S. *)
Definition is_space (c : char) : bool :=
  ((9 <=? c) && (c <=? 13) || (28 <=? c) && (c <=? 32)
   || (c =? 133) || (c =? 160) || (c =? 5760)
   || (8192 <=? c) && (c <=? 8202)
   || (c =? 8232) || (c =? 8233) || (c =? 8239) || (c =? 8287)
   || (c =? 12288))%N.

Fixpoint lstrip (s : text) : text :=
  match s with
  | c :: s' => if is_space c then lstrip s' else s
  | [] => []
  end.

(** [s.strip()]. *)
Definition strip (s : text) : text := rev (lstrip (rev (lstrip s))).

(** ** [bytes.decode('utf8')]

    The strict decoder: shortest form only, no surrogates, nothing above
    U+10FFFF.  [None] stands for [UnicodeDecodeError]. *)

Definition is_cont (b : N) : bool := ((128 <=? b) && (b <=? 191))%N.

Definition cont_bits (b : N) : N := N.land b 63.

Fixpoint decode_utf8_N (bs : list N) : option text :=
  match bs with
  | [] => Some []
  | b0 :: r0 =>
      if (b0 <? 128)%N then cons b0 <$> decode_utf8_N r0
      else if ((194 <=? b0) && (b0 <=? 223))%N then
        match r0 with
        | b1 :: r1 =>
            if is_cont b1
            then cons (N.lor (N.shiftl (N.land b0 31) 6) (cont_bits b1))
                   <$> decode_utf8_N r1
            else None
        | _ => None
        end
      else if ((224 <=? b0) && (b0 <=? 239))%N then
        match r0 with
        | b1 :: (b2 :: r2) =>
            let lo := if (b0 =? 224)%N then 160%N else 128%N in
            let hi := if (b0 =? 237)%N then 159%N else 191%N in
            if ((lo <=? b1) && (b1 <=? hi))%N && is_cont b2
            then cons (N.lor (N.shiftl (N.land b0 15) 12)
                         (N.lor (N.shiftl (cont_bits b1) 6) (cont_bits b2)))
                   <$> decode_utf8_N r2
            else None
        | _ => None
        end
      else if ((240 <=? b0) && (b0 <=? 244))%N then
        match r0 with
        | b1 :: (b2 :: (b3 :: r3)) =>
            let lo := if (b0 =? 240)%N then 144%N else 128%N in
            let hi := if (b0 =? 244)%N then 143%N else 191%N in
            if ((lo <=? b1) && (b1 <=? hi))%N && is_cont b2 && is_cont b3
            then cons (N.lor (N.shiftl (N.land b0 7) 18)
                         (N.lor (N.shiftl (cont_bits b1) 12)
                            (N.lor (N.shiftl (cont_bits b2) 6) (cont_bits b3))))
                   <$> decode_utf8_N r3
            else None
        | _ => None
        end
      else None
  end.

Definition decode_utf8 (bs : list byte) : option text :=
  decode_utf8_N (map Byte.to_N bs).

(** ** [repr] of a [bytes] object

    [b'...'], written with double quotes instead when the bytes hold a
    single quote and no double quote; the quote and the backslash are
    escaped, tab, newline and carriage return have their letter, and
    anything else outside the printable ASCII range is written [\xhh]. *)

Definition repr_byte (quote : char) (c : N) : text :=
  if decide (c = quote) then [92; c]%N
  else if decide (c = 92%N) then [92; 92]%N
  else if decide (c = 9%N) then [92; 116]%N
  else if decide (c = 10%N) then [92; 110]%N
  else if decide (c = 13%N) then [92; 114]%N
  else if ((c <? 32) || (127 <=? c))%N
       then [92; 120; str_lower_hex (c / 16); str_lower_hex (c mod 16)]%N
  else [c].

Definition repr_bytes (bs : list byte) : text :=
  let cs := map Byte.to_N bs in
  let quote : char :=
    if str_contains 39%N cs && negb (str_contains 34%N cs) then 34%N else 39%N in
  98%N :: quote :: concat (map (repr_byte quote) cs) ++ [quote].

(** ** Python values *)

(** The values that reach the worker: what [json.loads] builds, texts and
    process ids.  A [dict] is an association list in insertion order with
    distinct keys; [PFloat m e] is the binary64 number [m * 2^e]. *)
#[warnings="-register-all"]
Inductive pyval : Type :=
| PNone
| PBool (b : bool)
| PInt (z : Z)
| PFloat (m e : Z)
| PStr (s : text)
| PList (l : list pyval)
| PDict (d : list (text * pyval)).

Abbreviation pydict := (list (text * pyval)).

Fixpoint dict_get (k : text) (d : pydict) : option pyval :=
  match d with
  | [] => None
  | (k', v) :: d' => if decide (k' = k) then Some v else dict_get k d'
  end.

Fixpoint dict_del (k : text) (d : pydict) : pydict :=
  match d with
  | [] => []
  | (k', v) :: d' =>
      if decide (k' = k) then dict_del k d' else (k', v) :: dict_del k d'
  end.

Definition dict_has (k : text) (d : pydict) : bool :=
  bool_decide (is_Some (dict_get k d)).

(** What the input of [log] can be: [bytes], or text already decoded. *)
Inductive Data : Type :=
| Bytes (b : list byte)
| Text (t : text).

(** ** Exceptions and the monad of methods *)

Inductive exn : Type :=
| AssertionError
| TypeError
| AttributeError
| UnicodeDecodeError
| KeyError (key : text)
| InvalidLogLevelError (name : pyval)
| AlreadyCalledError.

(** [OutOfFuel] is not a Python outcome: it is what the bounded [while]
    loop of the model answers when its bound is too small.
    [log_never_out_of_fuel] shows that [log] never answers it. *)
Inductive outcome (A : Type) : Type :=
| Done (a : A)
| Raised (e : exn)
| OutOfFuel.
Arguments Done {A} a.
Arguments Raised {A} e.
Arguments OutOfFuel {A}.

(** ** Severity names *)

(** Modelled from the spec: [LogLevel] of [crossbar._logging] is not part of
    the sources at hand; the spec gives the fixed finite set of severity
    names as trace, debug, info, warn, error, critical. *)
Inductive LogLevel : Type :=
| trace | debug | info | warn | error | critical.

(** Modelled from the spec: [LogLevel.levelWithName], which resolves a name
    against the fixed set and fails on anything else. *)
Definition levelWithName (name : pyval) : outcome LogLevel :=
  match name with
  | PStr s =>
      if decide (s = txt "trace") then Done trace
      else if decide (s = txt "debug") then Done debug
      else if decide (s = txt "info") then Done info
      else if decide (s = txt "warn") then Done warn
      else if decide (s = txt "error") then Done error
      else if decide (s = txt "critical") then Done critical
      else Raised (InvalidLogLevelError name)
  | _ => Raised (InvalidLogLevelError name)
  end.

(** ** The collaborators: logger, controller, Deferred *)

(** One call of the logging sink: [emit(level, format, **kwargs)]. *)
Record Emission : Type := {
  em_level : LogLevel;
  em_format : pyval;
  em_kwargs : pydict
}.

(** One call of [controller.publish(topic, payload)]. *)
Record Publication : Type := {
  pub_topic : text;
  pub_payload : pyval
}.

(** A sequence object of the heap: the [deque] of a worker ([maxlen] set)
    or a [list] handed out by [getlog] ([maxlen] absent). *)
Record SeqObj : Type := {
  maxlen : option nat;
  items : list pyval
}.

Abbreviation addr := nat.

(** The bound methods a Deferred of this module holds as callbacks. *)
Inductive callback : Type :=
| cb_dump_remaining_log.

(** Twisted's [Deferred], as far as a worker uses it: a chain of callbacks
    and the flag that says the Deferred has fired. *)
Record Deferred : Type := {
  called : bool;
  callbacks : list callback
}.

Inductive WorkerClass : Type :=
| WorkerProcess_
| NativeWorkerProcess
| RouterWorkerProcess
| ContainerWorkerProcess
| GuestWorkerProcess.

Definition TYPE (c : WorkerClass) : text :=
  match c with
  | WorkerProcess_ => txt "worker"
  | NativeWorkerProcess => txt "native"
  | RouterWorkerProcess => txt "router"
  | ContainerWorkerProcess => txt "container"
  | GuestWorkerProcess => txt "guest"
  end.

Definition LOGNAME (c : WorkerClass) : text :=
  match c with
  | WorkerProcess_ => txt "Worker"
  | NativeWorkerProcess => txt "Native"
  | RouterWorkerProcess => txt "Router"
  | ContainerWorkerProcess => txt "Container"
  | GuestWorkerProcess => txt "Guest"
  end.

Inductive Status : Type :=
| starting | connected_ | started_ | exited.

(** The attributes of a [WorkerProcess] instance.  The time stamps
    ([created], [connected], [started]) and the [ready] Deferred play no
    part in log ingestion and are left out.  [_log_data] is [None] as long
    as the attribute does not exist: [__init__] does not create it. *)
Record WorkerProcess : Type := {
  class_ : WorkerClass;
  id : text;
  who : text;
  pid : option Z;
  status : Status;
  _log_entries : addr;
  _log_fds : list Z;
  _log_lineno : Z;
  _log_topic : text;
  _log_rich : option bool;
  _log_data : option text;
  exit : Deferred
}.

(** Everything a method can read or change. *)
Record World : Type := {
  self : WorkerProcess;
  heap : list SeqObj;
  sink : list Emission;
  bus : list Publication
}.

Definition M (A : Type) : Type := World -> outcome A * World.

#[global] Instance M_ret : MRet M := fun A a w => (Done a, w).

#[global] Instance M_bind : MBind M := fun A B f m w =>
  match m w with
  | (Done a, w') => f a w'
  | (Raised e, w') => (Raised e, w')
  | (OutOfFuel, w') => (OutOfFuel, w')
  end.

Definition raise {A : Type} (e : exn) : M A := fun w => (Raised e, w).

Definition out_of_fuel {A : Type} : M A := fun w => (OutOfFuel, w).

Definition lift {A : Type} (o : outcome A) : M A := fun w => (o, w).

(** [self.attr] *)
Definition get {A : Type} (attr : WorkerProcess -> A) : M A :=
  fun w => (Done (attr (self w)), w).

Definition set_self (f : WorkerProcess -> WorkerProcess) : M unit :=
  fun w => (Done tt, {| self := f (self w); heap := heap w;
                        sink := sink w; bus := bus w |}).

Definition with_status (s : Status) (p : WorkerProcess) : WorkerProcess :=
  {| class_ := class_ p; id := id p; who := who p; pid := pid p;
     status := s; _log_entries := _log_entries p; _log_fds := _log_fds p;
     _log_lineno := _log_lineno p; _log_topic := _log_topic p;
     _log_rich := _log_rich p; _log_data := _log_data p; exit := exit p |}.

Definition with_pid (n : option Z) (p : WorkerProcess) : WorkerProcess :=
  {| class_ := class_ p; id := id p; who := who p; pid := n;
     status := status p; _log_entries := _log_entries p;
     _log_fds := _log_fds p; _log_lineno := _log_lineno p;
     _log_topic := _log_topic p; _log_rich := _log_rich p;
     _log_data := _log_data p; exit := exit p |}.

Definition with_log_rich (b : option bool) (p : WorkerProcess) : WorkerProcess :=
  {| class_ := class_ p; id := id p; who := who p; pid := pid p;
     status := status p; _log_entries := _log_entries p;
     _log_fds := _log_fds p; _log_lineno := _log_lineno p;
     _log_topic := _log_topic p; _log_rich := b;
     _log_data := _log_data p; exit := exit p |}.

Definition with_log_data (d : option text) (p : WorkerProcess) : WorkerProcess :=
  {| class_ := class_ p; id := id p; who := who p; pid := pid p;
     status := status p; _log_entries := _log_entries p;
     _log_fds := _log_fds p; _log_lineno := _log_lineno p;
     _log_topic := _log_topic p; _log_rich := _log_rich p;
     _log_data := d; exit := exit p |}.

Definition with_exit (d : Deferred) (p : WorkerProcess) : WorkerProcess :=
  {| class_ := class_ p; id := id p; who := who p; pid := pid p;
     status := status p; _log_entries := _log_entries p;
     _log_fds := _log_fds p; _log_lineno := _log_lineno p;
     _log_topic := _log_topic p; _log_rich := _log_rich p;
     _log_data := _log_data p; exit := d |}.

(** [self._logger.emit(level, format, **kwargs)] *)
Definition logger_emit (level : LogLevel) (format : pyval) (kwargs : pydict)
  : M unit :=
  fun w => (Done tt,
            {| self := self w; heap := heap w;
               sink := sink w ++ [{| em_level := level; em_format := format;
                                     em_kwargs := kwargs |}];
               bus := bus w |}).

(** [self._controller.publish(topic, payload)] *)
Definition publish (topic : text) (payload : pyval) : M unit :=
  fun w => (Done tt,
            {| self := self w; heap := heap w; sink := sink w;
               bus := bus w ++ [{| pub_topic := topic;
                                   pub_payload := payload |}] |}).

(** [append] on a [deque] or a [list]: the item goes to the right end and,
    when that makes a bounded deque longer than [maxlen], the leftmost
    item is dropped. *)
Definition seq_append (x : pyval) (o : SeqObj) : SeqObj :=
  let l := items o ++ [x] in
  {| maxlen := maxlen o;
     items := match maxlen o with
              | Some n => if (n <? length l)%nat then tail l else l
              | None => l
              end |}.

(** [obj.append(x)] for the object at address [a]. *)
Definition heap_append (a : addr) (x : pyval) : M unit :=
  fun w => (Done tt,
            {| self := self w; heap := alter (seq_append x) a (heap w);
               sink := sink w; bus := bus w |}).

(** [self._log_entries.append(x)] *)
Definition entries_append (x : pyval) : M unit :=
  a ← get _log_entries;
  heap_append a x.

(** Allocation of a fresh sequence object. *)
Definition heap_alloc (o : SeqObj) : M addr :=
  fun w => (Done (length (heap w)),
            {| self := self w; heap := heap w ++ [o];
               sink := sink w; bus := bus w |}).

(** The items of the object at address [a], as they are now. *)
Definition heap_items (a : addr) (w : World) : list pyval :=
  match heap w !! a with
  | Some o => items o
  | None => []
  end.

(** What a method sees of the world. *)
Definition read {A : Type} (f : World -> A) : M A :=
  fun w => (Done (f w), w).

(** [for x in l: body(x)] *)
Fixpoint for_each {A : Type} (l : list A) (body : A -> M unit) : M unit :=
  match l with
  | [] => mret tt
  | x :: l' => body x;; for_each l' body
  end.

(** [event.pop(key)] and [event.pop(key, default)] on whatever value
    [json.loads] returned: only a [dict] has such a method. *)
Definition py_pop (event : pyval) (key : text) (default : option pyval)
  : outcome (pyval * pyval) :=
  match event with
  | PDict d =>
      match dict_get key d, default with
      | Some v, _ => Done (v, PDict (dict_del key d))
      | None, Some v => Done (v, event)
      | None, None => Raised (KeyError key)
      end
  | PList _ => Raised TypeError
  | _ => Raised AttributeError
  end.

(** The keyword arguments [**event] of a call: [event] must be a mapping. *)
Definition py_kwargs (event : pyval) : outcome pydict :=
  match event with
  | PDict d => Done d
  | _ => Raised TypeError
  end.

(** ["{:<10} {:>6}".format(logname, pid)].  An [int] is formatted in
    decimal; [None] does not accept a format specification. *)
Definition system_label (logname : text) (n : Z) : text :=
  ljust 10 logname ++ [32%N] ++ rjust 6 (str_of_int n).

Definition format_system (logname : text) (pid : option Z) : outcome text :=
  match pid with
  | Some n => Done (system_label logname n)
  | None => Raised TypeError
  end.

Definition pid_value (pid : option Z) : pyval :=
  match pid with
  | Some n => PInt n
  | None => PNone
  end.

(** The result a Deferred carries along its chain of callbacks. *)
Inductive dresult : Type :=
| Success (v : pyval)
| Failure (e : exn).

Section Worker.

(** [crossbar._logging.cb_logging_aware], the protocol marker. *)
Variable cb_logging_aware : text.

(** Modelled from the spec: [crossbar._logging.record_separator] is not
    part of the sources at hand; the spec makes it a single delimiter
    byte, hence one character of the decoded text. *)
Variable record_separator : char.

(** [crossbar._logging.escape_formatting]. *)
Variable escape_formatting : text -> text.

(** [os.linesep]. *)
Variable os_linesep : text.

(** [json.loads]; [None] stands for [ValueError]. *)
Variable json_loads : text -> option pyval.

(** [repr] of a [str]. *)
Variable repr_text : text -> text.

Definition repr (data : Data) : text :=
  match data with
  | Bytes b => repr_bytes b
  | Text t => repr_text t
  end.

(** [WorkerProcess.__init__(self, controller, id, who, keeplog=None)]:
    the world of a worker just created, for a controller whose node id
    is [node_id].  The history is a fresh [deque(maxlen=10)]; [keeplog]
    is not used. *)
Definition __init__ (cls : WorkerClass) (node_id : text) (id_ who_ : text)
    (keeplog : option Z) : World :=
  {| self :=
       {| class_ := cls;
          id := id_;
          who := who_;
          pid := None;
          status := starting;
          _log_entries := 0%nat;
          _log_fds := [1; 2];
          _log_lineno := 0;
          _log_topic := txt "crossbar.node." ++ node_id ++ txt ".worker."
                          ++ id_ ++ txt ".on_log";
          _log_rich := None;
          _log_data := None;
          exit := {| called := false;
                     callbacks := [cb_dump_remaining_log] |} |};
     heap := [ {| maxlen := Some 10%nat; items := [] |} ];
     sink := [];
     bus := [] |}.

(** [getlog(self)]: [list(self._log_entries)], a new list object. *)
Definition getlog : M addr :=
  a ← get _log_entries;
  l ← read (heap_items a);
  heap_alloc {| maxlen := None; items := l |}.

(** [self._log_data], which raises when the attribute does not exist. *)
Definition get_log_data : M text :=
  d ← get _log_data;
  match d with
  | Some buf => mret buf
  | None => raise AttributeError
  end.

(** [_dump_remaining_log(self, result)] *)
Definition _dump_remaining_log (result : dresult) : M dresult :=
  rich ← get _log_rich;
  pending ← (if bool_decide (rich = Some true)
             then (buf ← get_log_data; mret (bool_decide (buf ≠ [])))
             else mret false);
  (if pending : bool then
     p ← get pid;
     logger_emit warn
       (PStr (txt "REMAINING LOG BUFFER AFTER EXIT FOR PID {pid}:"))
       [(txt "pid", pid_value p)];;
     buf ← get_log_data;
     for_each (str_split os_linesep buf) (fun log =>
       logger_emit warn (PStr (escape_formatting log)) [])
   else mret tt);;
  mret result.

Definition run_callback (cb : callback) (result : dresult) : M dresult :=
  match cb with
  | cb_dump_remaining_log => _dump_remaining_log result
  end.

(** The callback chain of a Deferred: each callback receives the result
    of the one before; one that raises hands a failure to the next. *)
Fixpoint run_callbacks (cbs : list callback) (result : dresult) : M dresult :=
  match cbs with
  | [] => mret result
  | cb :: cbs' =>
      fun w =>
        match run_callback cb result w with
        | (Done r, w') => run_callbacks cbs' r w'
        | (Raised e, w') => run_callbacks cbs' (Failure e) w'
        | (OutOfFuel, w') => (OutOfFuel, w')
        end
  end.

(** [self.exit.callback(v)] or [self.exit.errback(f)]: the exit
    notification of the supervisor.  A Deferred fires once; firing it
    again raises [AlreadyCalledError] before any callback runs. *)
Definition exit_fire (result : dresult) : M dresult :=
  d ← get exit;
  if called d then raise AlreadyCalledError
  else
    set_self (with_exit {| called := true; callbacks := [] |});;
    run_callbacks (callbacks d) result.

(** What the [while] loop of [log] does with one raw record [log], once
    it has been split off the accumulation buffer. *)
Definition log_rich_event (system : text) (log : text) : M unit :=
  let event :=
    match json_loads log with
    | Some e => e
    | None =>
        PDict [(txt "level", PStr (txt "warn"));
               (txt "text",
                PStr (txt "INVALID JSON: " ++ escape_formatting log))]
    end in
  '(event_text, event) ← lift (py_pop event (txt "text") None);
  '(event_namespace, event) ←
    lift (py_pop event (txt "namespace") (Some PNone));
  '(level_name, event) ← lift (py_pop event (txt "level") None);
  level ← lift (levelWithName level_name);
  kwargs ← lift (py_kwargs event);
  (if dict_has (txt "log_system") kwargs
      || dict_has (txt "cb_namespace") kwargs
   then raise TypeError
   else logger_emit level event_text
          ((txt "log_system", PStr system)
           :: (txt "cb_namespace", event_namespace) :: kwargs));;
  entries_append event;;
  topic ← get _log_topic;
  if bool_decide (topic ≠ [])
  then publish topic event_text
  else mret tt.

(** The [while record_separator in self._log_data] loop of [log], run
    at most [fuel] times. *)
Fixpoint log_rich_loop (fuel : nat) (system : text) : M unit :=
  match fuel with
  | O => out_of_fuel
  | S fuel' =>
      buf ← get_log_data;
      if str_contains record_separator buf then
        let '(log, rest) := str_split1 record_separator buf in
        set_self (with_log_data (Some rest));;
        log_rich_event system log;;
        log_rich_loop fuel' system
      else mret tt
  end.

(** One turn of the [for row in data.split(os.linesep)] loop of the
    plain-text branch of [log]. *)
Definition plain_row (system : text) (row : text) : M unit :=
  let row := strip row in
  if bool_decide (row = []) then mret tt
  else
    logger_emit info (PStr row) [(txt "log_system", PStr system)];;
    entries_append (PStr row);;
    topic ← get _log_topic;
    if bool_decide (topic ≠ [])
    then publish topic (PStr row)
    else mret tt.

(** The plain-text branch of [log]. *)
Definition log_plain (system : text) (data : text) : M unit :=
  let data := escape_formatting data in
  for_each (str_split os_linesep data) (plain_row system).

(** [log(self, childFD, data)].  The loop bound is one more than the
    length of the accumulation buffer, which is more than the number of
    separators it can hold. *)
Definition log (childFD : Z) (data : Data) : M unit :=
  fds ← get _log_fds;
  if negb (bool_decide (childFD ∈ fds)) then raise AssertionError
  else
    cls ← get class_;
    p ← get pid;
    system ← lift (format_system (LOGNAME cls) p);
    if bool_decide (childFD = 1) then
      logger_emit info (PStr (repr data))
        [(txt "cb_namespace", PStr (txt "FD1"));
         (txt "log_system", PStr system)];;
      entries_append (PStr (repr data))
    else
      data ← (match data with
              | Text t => mret t
              | Bytes b =>
                  match decode_utf8 b with
                  | Some t => mret t
                  | None => raise UnicodeDecodeError
                  end
              end);
      rich ← get _log_rich;
      returned ← (match rich with
                  | None =>
                      if bool_decide
                           (take (length cb_logging_aware) data
                            = cb_logging_aware)
                      then
                        set_self (with_log_rich (Some true));;
                        set_self (with_log_data (Some []));;
                        mret true
                      else
                        set_self (with_log_rich (Some false));;
                        mret false
                  | Some _ => mret false
                  end);
      if returned : bool then mret tt
      else
        rich ← get _log_rich;
        if bool_decide (rich = Some true) then
          buf ← get_log_data;
          set_self (with_log_data (Some (buf ++ data)));;
          log_rich_loop (S (length (buf ++ data))) system
        else log_plain system data.

End Worker.

(** ** Notions used to state the properties *)

#[global] Instance outcome_ret : MRet outcome := fun A a => Done a.

#[global] Instance outcome_bind : MBind outcome := fun A B f o =>
  match o with
  | Done a => f a
  | Raised e => Raised e
  | OutOfFuel => OutOfFuel
  end.

(** The world with the attributes of the worker changed by [f]. *)
Definition world_with_self (f : WorkerProcess -> WorkerProcess) (w : World)
  : World :=
  {| self := f (self w); heap := heap w; sink := sink w; bus := bus w |}.

(** The stream made of the records [rs], each followed by the separator. *)
Definition frames (sep : char) (rs : list text) : text :=
  concat (map (fun r => r ++ [sep]) rs).

(** The complete records of a stream and the fragment that follows the
    last separator. *)
Fixpoint split_all (sep : char) (s : text) : list text * text :=
  match s with
  | [] => ([], [])
  | c :: s' =>
      let '(rs, t) := split_all sep s' in
      if decide (c = sep) then ([] :: rs, t)
      else match rs with
           | [] => ([], c :: t)
           | r :: rs' => ((c :: r) :: rs', t)
           end
  end.

(** A decoded structured record: what the loop of [log] hands to the
    logger ([ev_level], [ev_text], [ev_namespace], [ev_extra]), to the
    history ([ev_entry]) and to the topic ([ev_text]). *)
Record Event : Type := {
  ev_level : LogLevel;
  ev_text : pyval;
  ev_namespace : pyval;
  ev_extra : pydict;
  ev_entry : pyval
}.

Section Decode.

Variable escape_formatting : text -> text.
Variable json_loads : text -> option pyval.

(** The degraded event built for a record that is not JSON. *)
Definition invalid_json (log : text) : pyval :=
  PDict [(txt "level", PStr (txt "warn"));
         (txt "text", PStr (txt "INVALID JSON: " ++ escape_formatting log))].

(** The steps of [log_rich_event] that come before its first effect. *)
Definition decode_record (log : text) : outcome Event :=
  let event := match json_loads log with
               | Some e => e
               | None => invalid_json log
               end in
  '(event_text, event) ← py_pop event (txt "text") None;
  '(event_namespace, event) ← py_pop event (txt "namespace") (Some PNone);
  '(level_name, event) ← py_pop event (txt "level") None;
  level ← levelWithName level_name;
  kwargs ← py_kwargs event;
  if dict_has (txt "log_system") kwargs || dict_has (txt "cb_namespace") kwargs
  then Raised TypeError
  else Done {| ev_level := level; ev_text := event_text;
               ev_namespace := event_namespace; ev_extra := kwargs;
               ev_entry := event |}.

End Decode.

Definition emission_of (system : text) (ev : Event) : Emission :=
  {| em_level := ev_level ev;
     em_format := ev_text ev;
     em_kwargs := (txt "log_system", PStr system)
                  :: (txt "cb_namespace", ev_namespace ev) :: ev_extra ev |}.

Definition publication_of (topic : text) (ev : Event) : Publication :=
  {| pub_topic := topic; pub_payload := ev_text ev |}.

(** The effects of one decoded record: one emission, one append to the
    history and, with a topic, one publication. *)
Definition deliver (system : text) (w : World) (ev : Event) : World :=
  {| self := self w;
     heap := alter (seq_append (ev_entry ev)) (_log_entries (self w)) (heap w);
     sink := sink w ++ [emission_of system ev];
     bus := if bool_decide (_log_topic (self w) ≠ [])
            then bus w ++ [publication_of (_log_topic (self w)) ev]
            else bus w |}.

(** The effects of one plain-text line. *)
Definition deliver_line (system : text) (w : World) (row : text) : World :=
  {| self := self w;
     heap := alter (seq_append (PStr row)) (_log_entries (self w)) (heap w);
     sink := sink w ++ [{| em_level := info; em_format := PStr row;
                           em_kwargs := [(txt "log_system", PStr system)] |}];
     bus := if bool_decide (_log_topic (self w) ≠ [])
            then bus w ++ [{| pub_topic := _log_topic (self w);
                              pub_payload := PStr row |}]
            else bus w |}.

(** The lines of a plain-text chunk that produce an entry. *)
Definition plain_rows (escape_formatting : text -> text) (os_linesep : text)
    (data : text) : list text :=
  filter (fun row => row ≠ [])
    (map strip (str_split os_linesep (escape_formatting data))).

(** The text a chunk stands for, when it has one. *)
Definition data_text (d : Data) : option text :=
  match d with
  | Text t => Some t
  | Bytes b => decode_utf8 b
  end.

(** A step leaves alone whatever [log] never touches: the attributes other
    than the decoder state, the address of the history, the number of
    objects of the heap and every object but the history. *)
Definition log_frame (w w' : World) : Prop :=
  class_ (self w') = class_ (self w)
  /\ pid (self w') = pid (self w)
  /\ status (self w') = status (self w)
  /\ _log_entries (self w') = _log_entries (self w)
  /\ _log_fds (self w') = _log_fds (self w)
  /\ _log_topic (self w') = _log_topic (self w)
  /\ exit (self w') = exit (self w)
  /\ length (heap w') = length (heap w)
  /\ (forall r : addr, r ≠ _log_entries (self w) -> heap w' !! r = heap w !! r).

(** The decoder mode, once decided, stays what it is. *)
Definition mode_kept (w w' : World) : Prop :=
  forall b : bool, _log_rich (self w) = Some b -> _log_rich (self w') = Some b.

(** [m] relates every world to the world it leaves behind by [R]. *)
Definition preserves {A : Type} (R : World -> World -> Prop) (m : M A) : Prop :=
  forall w, R w (snd (m w)).

(** [m] does the same whatever the status of the worker. *)
Definition status_blind {A : Type} (m : M A) : Prop :=
  forall s w,
    m (world_with_self (with_status s) w)
    = (fst (m w), world_with_self (with_status s) (snd (m w))).

(** [m] answers, whatever the world. *)
Definition answers {A : Type} (m : M A) : Prop :=
  forall w, fst (m w) ≠ OutOfFuel.

Definition mode_same (w w' : World) : Prop :=
  _log_rich (self w') = _log_rich (self w).

Section Drain.

Variable record_separator : char.
Variable escape_formatting : text -> text.
Variable json_loads : text -> option pyval.

(** The [while] loop of [log] seen from the records it meets: before
    each record the accumulation buffer is cut down to what follows it. *)
Fixpoint drain (system : text) (rs : list text) (t : text) : M unit :=
  match rs with
  | [] => mret tt
  | r :: rs' =>
      set_self (with_log_data (Some (frames record_separator rs' ++ t)));;
      log_rich_event escape_formatting json_loads system r;;
      drain system rs' t
  end.

End Drain.

Section Calls.

Variable cb_logging_aware : text.
Variable record_separator : char.
Variable escape_formatting : text -> text.
Variable os_linesep : text.
Variable json_loads : text -> option pyval.
Variable repr_text : text -> text.

(** The world after the supervisor has made the calls [log(fd, data)] of
    [calls] in order, whether a call raised or not. *)
Fixpoint after_logs (calls : list (Z * Data)) (w : World) : World :=
  match calls with
  | [] => w
  | (fd, data) :: calls' =>
      after_logs calls'
        (snd (log cb_logging_aware record_separator escape_formatting
                os_linesep json_loads repr_text fd data w))
  end.

End Calls.

(** The degraded event of a record that is not JSON. *)
Definition degraded (escape_formatting : text -> text) (r : text) : Event :=
  {| ev_level := warn;
     ev_text := PStr (txt "INVALID JSON: " ++ escape_formatting r);
     ev_namespace := PNone;
     ev_extra := [];
     ev_entry := PDict [] |}.

(** What is left of a decoded JSON object once [text], [namespace] and
    [level] have been popped. *)
Definition extras (d : pydict) : pydict :=
  dict_del (txt "level") (dict_del (txt "namespace") (dict_del (txt "text") d)).

(** A Deferred that has fired. *)
Definition fired : Deferred := {| called := true; callbacks := [] |}.


Section WellFormed.

Variable json_loads : text -> option pyval.

(** A well-formed structured record [r] and the event it stands for: [r]
    is a JSON object with the keys [text] and [level], the level resolves,
    and no other key of the object collides with a keyword the logger is
    called with. *)
Definition well_formed (r : text) (ev : Event) : Prop :=
  exists (d : pydict) (tv lv : pyval) (level : LogLevel),
    json_loads r = Some (PDict d)
    /\ dict_get (txt "text") d = Some tv
    /\ dict_get (txt "level") d = Some lv
    /\ levelWithName lv = Done level
    /\ dict_has (txt "log_system") (extras d) = false
    /\ dict_has (txt "cb_namespace") (extras d) = false
    /\ ev = {| ev_level := level;
               ev_text := tv;
               ev_namespace := default PNone (dict_get (txt "namespace") d);
               ev_extra := extras d;
               ev_entry := PDict (extras d) |}.

End WellFormed.

(** The history of the worker is a deque of capacity [K] holding at most
    [K] entries. *)
Definition history_bounded (K : nat) (w : World) : Prop :=
  exists o, heap w !! _log_entries (self w) = Some o
            /\ maxlen o = Some K
            /\ (length (items o) <= K)%nat.

(** A step keeps the history within its capacity. *)
Definition keeps_history_bound (w w' : World) : Prop :=
  forall K, history_bounded K w -> history_bounded K w'.

(** A text that is not empty and neither starts nor ends with white
    space. *)
Definition trimmed (row : text) : Prop :=
  row ≠ []
  /\ (forall c, head row = Some c -> is_space c = false)
  /\ (forall c, last row = Some c -> is_space c = false).

(** The emission and the publication of one plain-text line. *)
Definition line_emission (system : text) (row : text) : Emission :=
  {| em_level := info; em_format := PStr row;
     em_kwargs := [(txt "log_system", PStr system)] |}.

Definition line_publication (topic : text) (row : text) : Publication :=
  {| pub_topic := topic; pub_payload := PStr row |}.

(** Bytes that are all ASCII. *)
Definition is_ascii (bs : list byte) : Prop :=
  Forall (fun b => (Byte.to_N b < 128)%N) bs.

(** ** The register-me web resource (crossbar/master/webservice/registerme.py) *)
Module RegisterMe.

(** What [getChild] returns: the resource itself, or what
    [Resource.getChild] of Twisted answers. *)
Inductive child : Type :=
| Self
| ResourceGetChild.

(** [sep.join(l)] on [bytes]. *)
Fixpoint bytes_join (sep : list byte) (l : list (list byte)) : list byte :=
  match l with
  | [] => []
  | [x] => x
  | x :: l' => x ++ sep ++ bytes_join sep l'
  end.

(** [s.endswith(c)] for a one-character suffix. *)
Definition endswith (c : char) (s : text) : bool :=
  bool_decide (last s = Some c).

(** [RegisterMeResource.getChild(self, path, request)], as a function of
    [path] and [request.postpath].  The call of [self.log.debug] that
    comes first only writes to the logger and is left out. *)
Definition getChild (path : list byte) (postpath : list (list byte))
  : outcome child :=
  match decode_utf8 (bytes_join [x2f] ([path] ++ postpath)) with
  | None => Raised UnicodeDecodeError
  | Some search_path =>
      if bool_decide (search_path = [])
         || endswith 47%N search_path
         || bool_decide (search_path ∈ [txt "register"; txt "register.html"])
      then Done Self
      else Done ResourceGetChild
  end.

End RegisterMe.

(** ** A concrete instance of the parameters

    The constants and helpers as a deployment has them, used for the
    executable examples below. *)
Module Sample.

Definition cb_logging_aware : text := txt "CROSSBAR_RICH_LOGGING_ENABLE=True".

Definition record_separator : char := 30%N.

Definition os_linesep : text := [10%N].

(** An escape that makes a text inert as a format string: braces are
    doubled. *)
Definition escape_formatting (t : text) : text :=
  concat (map (fun c : char =>
                 if decide (c = 123%N) then [123; 123]%N
                 else if decide (c = 125%N) then [125; 125]%N
                 else [c]) t).

(** [repr] of a text of printable ASCII characters without quotes or
    backslashes: the text between single quotes. *)
Definition repr_text (t : text) : text := [39%N] ++ t ++ [39%N].

Definition doc_hi : text := txt "{'text':'hi','level':'info'}".
Definition doc_bye : text := txt "{'text':'bye','level':'error'}".
Definition doc_cafe : text :=
  txt "{'text':'caf" ++ [233%N] ++ txt "','level':'info'}".
Definition doc_rich : text :=
  txt "{'text':'up','level':'debug','namespace':'net','port':8080}".
Definition doc_loud : text := txt "{'text':'hi','level':'loud'}".
Definition doc_empty : text := txt "{}".
Definition doc_no_level : text := txt "{'text':'hi'}".

(** JSON documents are written here with ['] in the place of the double
    quote of the wire format. *)
Definition wire (t : text) : text :=
  map (fun c : char => if decide (c = 39%N) then 34%N else c) t.

(** [json.loads] on the documents above; any other text of this instance
    is taken not to be JSON. *)
Definition json_loads (t : text) : option pyval :=
  if decide (t = wire doc_hi) then
    Some (PDict [(txt "text", PStr (txt "hi"));
                 (txt "level", PStr (txt "info"))])
  else if decide (t = wire doc_bye) then
    Some (PDict [(txt "text", PStr (txt "bye"));
                 (txt "level", PStr (txt "error"))])
  else if decide (t = wire doc_cafe) then
    Some (PDict [(txt "text", PStr (txt "caf" ++ [233%N]));
                 (txt "level", PStr (txt "info"))])
  else if decide (t = wire doc_rich) then
    Some (PDict [(txt "text", PStr (txt "up"));
                 (txt "level", PStr (txt "debug"));
                 (txt "namespace", PStr (txt "net"));
                 (txt "port", PInt 8080)])
  else if decide (t = wire doc_loud) then
    Some (PDict [(txt "text", PStr (txt "hi"));
                 (txt "level", PStr (txt "loud"))])
  else if decide (t = wire doc_empty) then Some (PDict [])
  else if decide (t = wire doc_no_level) then
    Some (PDict [(txt "text", PStr (txt "hi"))])
  else None.

Definition log : Z -> Data -> M unit :=
  log cb_logging_aware record_separator escape_formatting os_linesep
    json_loads repr_text.

Definition getlog : M addr := getlog.

Definition exit_fire : dresult -> M dresult :=
  exit_fire escape_formatting os_linesep.

(** A router worker of node [n1] with id [w1], once the supervisor has
    recorded its process id. *)
Definition spawned : World :=
  let w := __init__ RouterWorkerProcess (txt "n1") (txt "w1") (txt "me") None in
  {| self := with_pid (Some 4711) (self w); heap := heap w;
     sink := sink w; bus := bus w |}.

(** The bytes of an ASCII text. *)
Definition ascii_bytes (t : text) : list byte :=
  omap Byte.of_N t.

(** The worker after its first chunk, which was the protocol marker. *)
Definition structured : World :=
  snd (log 2 (Text cb_logging_aware) spawned).


(** A worker that has exited: the exit Deferred has fired and the
    supervisor has set the status. *)
Definition exited_world : World :=
  world_with_self (with_status exited)
    (snd (exit_fire (Success PNone) spawned)).

(** The UTF-8 bytes of the record [doc_cafe] and of its separator, cut
    between the two bytes of U+00E9. *)
Definition cafe_head : list byte :=
  ascii_bytes (wire (txt "{'text':'caf")) ++ [xc3].

Definition cafe_tail : list byte :=
  [xa9] ++ ascii_bytes (wire (txt "','level':'info'}") ++ [record_separator]).

(** The events of [doc_hi], [doc_bye] and [doc_cafe]. *)
Definition ev_hi : Event :=
  {| ev_level := info; ev_text := PStr (txt "hi"); ev_namespace := PNone;
     ev_extra := []; ev_entry := PDict [] |}.

Definition ev_bye : Event :=
  {| ev_level := error; ev_text := PStr (txt "bye"); ev_namespace := PNone;
     ev_extra := []; ev_entry := PDict [] |}.

(** Eleven chunks for the raw channel, of one byte each. *)
Definition eleven : list Data :=
  map (fun b => Bytes [b]) [x30; x31; x32; x33; x34; x35; x36; x37; x38; x39; x61].

(** The topic of the sample worker. *)
Definition topic : text := txt "crossbar.node.n1.worker.w1.on_log".

End Sample.


(** The attributes of [p'] are those of [p], but for the decoder state
    ([_log_rich] and [_log_data]). *)
Definition decoder_only (p p' : WorkerProcess) : Prop :=
  p' = with_log_data (_log_data p') (with_log_rich (_log_rich p') p).

(** A step writes no attribute of the worker but the decoder state. *)
Definition writes_decoder_only (w w' : World) : Prop :=
  decoder_only (self w) (self w').

(** ** Further sample data *)
Module Sample2.

Definition doc_collide : text :=
  txt "{'text':'hi','level':'info','log_system':'mine'}".
Definition doc_number : text := txt "5".
Definition doc_list : text := txt "[1]".

(** [json.loads] on the documents of [Sample] and on the three above. *)
Definition json_loads (t : text) : option pyval :=
  if decide (t = Sample.wire doc_collide) then
    Some (PDict [(txt "text", PStr (txt "hi"));
                 (txt "level", PStr (txt "info"));
                 (txt "log_system", PStr (txt "mine"))])
  else if decide (t = doc_number) then Some (PInt 5)
  else if decide (t = doc_list) then Some (PList [PInt 1])
  else Sample.json_loads t.

Definition log : Z -> Data -> M unit :=
  log Sample.cb_logging_aware Sample.record_separator Sample.escape_formatting
    Sample.os_linesep json_loads Sample.repr_text.

(** The sample worker after the marker. *)
Definition structured : World :=
  snd (log 2 (Text Sample.cb_logging_aware) Sample.spawned).

(** The sample worker after a first chunk of plain text. *)
Definition plain : World :=
  snd (Sample.log 2 (Text (txt "hello")) Sample.spawned).

End Sample2.

(** * Properties *)

(** ** The helpers on small inputs *)

Example str_split_lines :
  str_split [10]%N (txt "foo" ++ [10; 10]%N ++ txt "bar" ++ [10]%N)
  = [txt "foo"; []; txt "bar"; []].
Proof. reflexivity. Qed.

Example str_split_crlf :
  str_split [13; 10]%N [97; 13; 10; 98; 13; 99]%N = [[97]; [98; 13; 99]]%N.
Proof. reflexivity. Qed.

Example decode_utf8_e_acute :
  decode_utf8 [x63; xc3; xa9] = Some [99; 233]%N /\ decode_utf8 [x63; xc3] = None.
Proof. split; reflexivity. Qed.

Example repr_bytes_hello :
  repr_bytes [x68; x69; x0a; xff] = txt "b'hi\n\xff'".
Proof. reflexivity. Qed.

Example repr_bytes_quote :
  repr_bytes [x27] = [98; 34; 39; 34]%N.
Proof. reflexivity. Qed.

(** ** How computations compose *)

Lemma bind_done {A B : Type} (m : M A) (f : A -> M B) w a w' :
  m w = (Done a, w') -> (m ≫= f) w = f a w'.
Proof. intros H. unfold mbind, M_bind. now rewrite H. Qed.

Lemma bind_raised {A B : Type} (m : M A) (f : A -> M B) w e w' :
  m w = (Raised e, w') -> (m ≫= f) w = (Raised e, w').
Proof. intros H. unfold mbind, M_bind. now rewrite H. Qed.

Lemma for_each_app {A : Type} (l1 l2 : list A) (body : A -> M unit) w w' :
  for_each l1 body w = (Done tt, w') ->
  for_each (l1 ++ l2) body w = for_each l2 body w'.
Proof.
  revert w. induction l1 as [|x l1 IH]; intros w H; simpl in *.
  - now inversion H.
  - unfold mbind, M_bind in *.
    destruct (body x w) as [[[]|e|] w1]; try discriminate.
    now apply IH.
Qed.

Section Composition.

Context {A B : Type}.
Variable R : World -> World -> Prop.
Hypothesis R_refl : forall w, R w w.
Hypothesis R_trans : forall w1 w2 w3, R w1 w2 -> R w2 w3 -> R w1 w3.

Lemma preserves_pure (o : outcome A) : preserves R (lift o).
Proof. intros w. apply R_refl. Qed.

Lemma preserves_bind (m : M A) (f : A -> M B) :
  preserves R m -> (forall a, preserves R (f a)) -> preserves R (m ≫= f).
Proof.
  intros Hm Hf w. unfold mbind, M_bind.
  specialize (Hm w). destruct (m w) as [[a|e|] w1]; simpl in *; auto.
  eapply R_trans; [exact Hm | apply Hf].
Qed.

End Composition.

Lemma preserves_for_each {A : Type} (R : World -> World -> Prop)
    (l : list A) (body : A -> M unit) :
  (forall w, R w w) ->
  (forall w1 w2 w3, R w1 w2 -> R w2 w3 -> R w1 w3) ->
  (forall x, preserves R (body x)) -> preserves R (for_each l body).
Proof.
  intros Hr Ht Hb. induction l as [|x l IH]; simpl.
  - intros w. apply Hr.
  - apply preserves_bind; auto.
Qed.

Lemma status_blind_pure {A : Type} (o : outcome A) : status_blind (lift o).
Proof. now intros s w. Qed.

Lemma status_blind_ret {A : Type} (a : A) : status_blind (mret a : M A).
Proof. now intros s w. Qed.

Lemma status_blind_raise {A : Type} (e : exn) : status_blind (raise e : M A).
Proof. now intros s w. Qed.

Lemma status_blind_bind {A B : Type} (m : M A) (f : A -> M B) :
  status_blind m -> (forall a, status_blind (f a)) -> status_blind (m ≫= f).
Proof.
  intros Hm Hf s w. unfold mbind, M_bind. rewrite Hm.
  destruct (m w) as [[a|e|] w1]; simpl; auto.
  rewrite Hf. reflexivity.
Qed.

Lemma status_blind_get {A : Type} (attr : WorkerProcess -> A) :
  (forall s p, attr (with_status s p) = attr p) -> status_blind (get attr).
Proof. intros H s w. unfold get. simpl. now rewrite H. Qed.

Lemma status_blind_set_self (f : WorkerProcess -> WorkerProcess) :
  (forall s p, f (with_status s p) = with_status s (f p)) ->
  status_blind (set_self f).
Proof.
  intros H s w. unfold set_self, world_with_self. simpl. now rewrite H.
Qed.

Lemma status_blind_logger_emit level format kwargs :
  status_blind (logger_emit level format kwargs).
Proof. now intros s w. Qed.

Lemma status_blind_publish topic payload : status_blind (publish topic payload).
Proof. now intros s w. Qed.

Lemma status_blind_entries_append x : status_blind (entries_append x).
Proof. now intros s w. Qed.

Lemma status_blind_for_each {A : Type} (l : list A) (body : A -> M unit) :
  (forall x, status_blind (body x)) -> status_blind (for_each l body).
Proof.
  intros Hb. induction l as [|x l IH]; simpl.
  - apply status_blind_ret.
  - apply status_blind_bind; auto.
Qed.

Create HintDb blind.

#[local] Hint Resolve status_blind_pure status_blind_ret status_blind_raise
  status_blind_logger_emit status_blind_publish status_blind_entries_append
  : blind.

Ltac blind_step :=
  match goal with
  | |- status_blind (_ ≫= _) => apply status_blind_bind; [|intros]
  | |- status_blind (get _) => apply status_blind_get; reflexivity
  | |- status_blind (set_self _) => apply status_blind_set_self; reflexivity
  | |- status_blind (for_each _ _) => apply status_blind_for_each; intros
  | |- status_blind (if ?b then _ else _) => destruct b
  | |- status_blind (match ?x with _ => _ end) => destruct x
  | |- status_blind (let '(_, _) := ?x in _) => destruct x
  | |- status_blind _ => solve [auto with blind]
  end.

Section Blind.

Variable cb_logging_aware : text.
Variable record_separator : char.
Variable escape_formatting : text -> text.
Variable os_linesep : text.
Variable json_loads : text -> option pyval.
Variable repr_text : text -> text.

Lemma status_blind_log_rich_event system r :
  status_blind (log_rich_event escape_formatting json_loads system r).
Proof. unfold log_rich_event. repeat blind_step. Qed.

Lemma status_blind_log_rich_loop fuel system :
  status_blind
    (log_rich_loop record_separator escape_formatting json_loads fuel system).
Proof.
  induction fuel as [|fuel IH]; simpl.
  - now intros s w.
  - unfold get_log_data. repeat blind_step; auto using status_blind_log_rich_event.
Qed.

Lemma status_blind_log fd data :
  status_blind (log cb_logging_aware record_separator escape_formatting
                  os_linesep json_loads repr_text fd data).
Proof.
  unfold log, log_plain, plain_row, get_log_data.
  repeat blind_step; auto using status_blind_log_rich_loop.
Qed.

End Blind.

(** ** What [log] leaves alone *)

Lemma log_frame_refl w : log_frame w w.
Proof. unfold log_frame. tauto. Qed.

Lemma log_frame_trans w1 w2 w3 :
  log_frame w1 w2 -> log_frame w2 w3 -> log_frame w1 w3.
Proof.
  unfold log_frame.
  intros (H1 & H2 & H3 & H4 & H5 & H6 & H7 & H8 & H9)
         (K1 & K2 & K3 & K4 & K5 & K6 & K7 & K8 & K9).
  repeat split; try congruence.
  intros r Hr. rewrite K9, H9; congruence.
Qed.

Lemma mode_same_refl w : mode_same w w.
Proof. reflexivity. Qed.

Lemma mode_same_trans w1 w2 w3 :
  mode_same w1 w2 -> mode_same w2 w3 -> mode_same w1 w3.
Proof. unfold mode_same. congruence. Qed.

Lemma log_frame_entries_append x : preserves log_frame (entries_append x).
Proof.
  intros w. unfold log_frame. simpl. repeat split; try reflexivity.
  - apply length_alter.
  - intros r Hr. apply list_lookup_alter_ne. congruence.
Qed.

Lemma log_frame_set_log_rich b : preserves log_frame (set_self (with_log_rich b)).
Proof. intros w. unfold log_frame. simpl. tauto. Qed.

Lemma log_frame_set_log_data d : preserves log_frame (set_self (with_log_data d)).
Proof. intros w. unfold log_frame. simpl. tauto. Qed.

Lemma mode_same_set_log_data d : preserves mode_same (set_self (with_log_data d)).
Proof. now intros w. Qed.

Lemma preserves_get {A : Type} R (attr : WorkerProcess -> A) :
  (forall w, R w w) -> preserves R (get attr).
Proof. intros H w. apply H. Qed.

Lemma preserves_ret {A : Type} R (a : A) :
  (forall w, R w w) -> preserves R (mret a : M A).
Proof. intros H w. apply H. Qed.

Lemma preserves_raise {A : Type} R (e : exn) :
  (forall w, R w w) -> preserves R (raise e : M A).
Proof. intros H w. apply H. Qed.

Lemma preserves_out_of_fuel {A : Type} R :
  (forall w, R w w) -> preserves R (out_of_fuel : M A).
Proof. intros H w. apply H. Qed.

Lemma log_frame_logger_emit level format kwargs :
  preserves log_frame (logger_emit level format kwargs).
Proof. intros w. unfold log_frame. simpl. tauto. Qed.

Lemma log_frame_publish topic payload :
  preserves log_frame (publish topic payload).
Proof. intros w. unfold log_frame. simpl. tauto. Qed.

Lemma mode_same_logger_emit level format kwargs :
  preserves mode_same (logger_emit level format kwargs).
Proof. now intros w. Qed.

Lemma mode_same_publish topic payload :
  preserves mode_same (publish topic payload).
Proof. now intros w. Qed.

Lemma mode_same_entries_append x : preserves mode_same (entries_append x).
Proof. now intros w. Qed.

Create HintDb frame.

#[local] Hint Resolve log_frame_refl mode_same_refl : frame.
#[local] Hint Resolve log_frame_entries_append log_frame_set_log_rich
  log_frame_set_log_data mode_same_set_log_data log_frame_logger_emit
  log_frame_publish mode_same_logger_emit mode_same_publish
  mode_same_entries_append : frame.
#[local] Hint Resolve preserves_get preserves_ret preserves_raise
  preserves_out_of_fuel preserves_pure : frame.

Ltac frame_bind :=
  first [ apply (preserves_bind log_frame log_frame_trans)
        | apply (preserves_bind mode_same mode_same_trans) ].

Ltac frame_for_each :=
  first [ apply (preserves_for_each log_frame _ _ log_frame_refl log_frame_trans)
        | apply (preserves_for_each mode_same _ _ mode_same_refl mode_same_trans) ].

Ltac frame_step :=
  match goal with
  | |- preserves _ (_ ≫= _) => frame_bind; [|intros]
  | |- preserves _ (for_each _ _) => frame_for_each; intros
  | |- preserves _ (if ?b then _ else _) => destruct b
  | |- preserves _ (match ?x with _ => _ end) => destruct x
  | |- preserves _ (let '(_, _) := ?x in _) => destruct x
  | |- preserves _ _ => solve [auto with frame]
  end.

Section Frame.

Variable cb_logging_aware : text.
Variable record_separator : char.
Variable escape_formatting : text -> text.
Variable os_linesep : text.
Variable json_loads : text -> option pyval.
Variable repr_text : text -> text.

Lemma log_frame_log_rich_event system r :
  preserves log_frame (log_rich_event escape_formatting json_loads system r).
Proof. unfold log_rich_event. repeat frame_step. Qed.

Lemma mode_same_log_rich_event system r :
  preserves mode_same (log_rich_event escape_formatting json_loads system r).
Proof. unfold log_rich_event. repeat frame_step. Qed.

Lemma log_frame_log_rich_loop fuel system :
  preserves log_frame
    (log_rich_loop record_separator escape_formatting json_loads fuel system).
Proof.
  induction fuel as [|fuel IH]; simpl.
  - auto with frame.
  - unfold get_log_data.
    repeat frame_step; auto using log_frame_log_rich_event.
Qed.

Lemma mode_same_log_rich_loop fuel system :
  preserves mode_same
    (log_rich_loop record_separator escape_formatting json_loads fuel system).
Proof.
  induction fuel as [|fuel IH]; simpl.
  - auto with frame.
  - unfold get_log_data.
    repeat frame_step; auto using mode_same_log_rich_event.
Qed.

Lemma mode_same_log_plain system data :
  preserves mode_same (log_plain escape_formatting os_linesep system data).
Proof. unfold log_plain, plain_row. repeat frame_step. Qed.

Lemma log_frame_log fd data :
  preserves log_frame
    (log cb_logging_aware record_separator escape_formatting os_linesep
       json_loads repr_text fd data).
Proof.
  unfold log, log_plain, plain_row, get_log_data.
  repeat frame_step; auto using log_frame_log_rich_loop.
Qed.

End Frame.

(** ** Framing of the byte stream *)

Section Framing.

Variable sep : char.

Lemma split_all_no_sep s :
  str_contains sep s = false -> split_all sep s = ([], s).
Proof.
  induction s as [|c s IH]; simpl; [reflexivity|].
  destruct (decide (c = sep)); [discriminate|].
  intros H. now rewrite (IH H).
Qed.

Lemma split_all_step s :
  str_contains sep s = true ->
  split_all sep s
  = (fst (str_split1 sep s) :: fst (split_all sep (snd (str_split1 sep s))),
     snd (split_all sep (snd (str_split1 sep s)))).
Proof.
  induction s as [|c s IH]; simpl; [discriminate|].
  destruct (decide (c = sep)) as [->|Hc].
  - intros _. simpl. now destruct (split_all sep s).
  - intros H. rewrite (IH H).
    destruct (str_split1 sep s) as [hd tl]. simpl.
    now destruct (split_all sep tl).
Qed.

Lemma str_split1_shorter s :
  str_contains sep s = true ->
  (length (snd (str_split1 sep s)) < length s)%nat.
Proof.
  induction s as [|c s IH]; simpl; [discriminate|].
  destruct (decide (c = sep)); simpl; [lia|].
  intros H. specialize (IH H).
  destruct (str_split1 sep s). simpl in *. lia.
Qed.

Lemma str_contains_app s1 s2 :
  str_contains sep (s1 ++ s2) = str_contains sep s1 || str_contains sep s2.
Proof.
  induction s1 as [|c s1 IH]; simpl; [reflexivity|].
  now destruct (decide (c = sep)).
Qed.

Lemma split_all_tail_no_sep s :
  str_contains sep (snd (split_all sep s)) = false.
Proof.
  induction s as [|c s IH]; simpl; [reflexivity|].
  destruct (split_all sep s) as [rs t]. simpl in *.
  destruct (decide (c = sep)); simpl; [assumption|].
  destruct rs; simpl; [|assumption].
  destruct (decide (c = sep)); [contradiction|assumption].
Qed.

Lemma split_all_rebuild s :
  frames sep (fst (split_all sep s)) ++ snd (split_all sep s) = s.
Proof.
  induction s as [|c s IH]; simpl; [reflexivity|].
  destruct (split_all sep s) as [rs t]. simpl in *.
  destruct (decide (c = sep)) as [->|Hc]; simpl.
  - unfold frames in *. simpl. now rewrite IH.
  - destruct rs as [|r rs]; simpl in *.
    + now rewrite <- IH.
    + unfold frames in *. simpl in *. now rewrite <- IH.
Qed.

Lemma split_all_app s1 s2 :
  split_all sep (s1 ++ s2)
  = (fst (split_all sep s1)
       ++ fst (split_all sep (snd (split_all sep s1) ++ s2)),
     snd (split_all sep (snd (split_all sep s1) ++ s2))).
Proof.
  induction s1 as [|c s1 IH]; simpl.
  - now destruct (split_all sep s2).
  - rewrite IH. destruct (split_all sep s1) as [rs t]. simpl.
    destruct (decide (c = sep)) as [->|Hc]; simpl; [reflexivity|].
    destruct rs as [|r rs]; simpl.
    + destruct (split_all sep (t ++ s2)) as [rs2 t2]. simpl.
      destruct (decide (c = sep)); [contradiction|]. now destruct rs2.
    + reflexivity.
Qed.

Lemma split_all_record r rest :
  str_contains sep r = false ->
  split_all sep (r ++ sep :: rest)
  = (r :: fst (split_all sep rest), snd (split_all sep rest)).
Proof.
  induction r as [|c r IH]; simpl.
  - intros _. destruct (split_all sep rest). simpl.
    case_decide; [reflexivity|contradiction].
  - destruct (decide (c = sep)); [discriminate|].
    intros H. now rewrite (IH H).
Qed.

Lemma frames_cons r rs t :
  frames sep (r :: rs) ++ t = r ++ sep :: (frames sep rs ++ t).
Proof. unfold frames. simpl. now rewrite <- !app_assoc. Qed.


Lemma split_all_frames rs t :
  Forall (fun r => str_contains sep r = false) rs ->
  str_contains sep t = false ->
  split_all sep (frames sep rs ++ t) = (rs, t).
Proof.
  intros Hrs Ht. induction Hrs as [|r rs Hr Hrs IH].
  - simpl. now apply split_all_no_sep.
  - rewrite frames_cons, (split_all_record r _ Hr). now rewrite IH.
Qed.

End Framing.

(** ** One record, and the loop over the records of the buffer *)

Lemma world_with_log_data_id w d :
  _log_data (self w) = Some d ->
  world_with_self (with_log_data (Some d)) w = w.
Proof.
  destruct w as [p h s b]. destruct p. unfold world_with_self. simpl.
  now intros ->.
Qed.

Lemma foldl_deliver_with_log_data system d evs w :
  foldl (deliver system) (world_with_self (with_log_data d) w) evs
  = world_with_self (with_log_data d) (foldl (deliver system) w evs).
Proof.
  revert w. induction evs as [|ev evs IH]; intros w; simpl; [reflexivity|].
  now rewrite <- IH.
Qed.

Lemma foldl_deliver_self system evs w :
  self (foldl (deliver system) w evs) = self w.
Proof.
  revert w. induction evs as [|ev evs IH]; intros w; simpl; [reflexivity|].
  now rewrite IH.
Qed.

Lemma foldl_deliver_sink system evs w :
  sink (foldl (deliver system) w evs) = sink w ++ map (emission_of system) evs.
Proof.
  revert w. induction evs as [|ev evs IH]; intros w; simpl.
  - now rewrite app_nil_r.
  - rewrite IH. simpl. now rewrite <- app_assoc.
Qed.

Lemma foldl_deliver_bus system evs w :
  _log_topic (self w) ≠ [] ->
  bus (foldl (deliver system) w evs)
  = bus w ++ map (publication_of (_log_topic (self w))) evs.
Proof.
  intros Ht. revert w Ht. induction evs as [|ev evs IH]; intros w Ht; simpl.
  - now rewrite app_nil_r.
  - rewrite IH by exact Ht. simpl.
    rewrite bool_decide_eq_true_2 by exact Ht. now rewrite <- app_assoc.
Qed.

Lemma foldl_deliver_heap system evs w :
  heap (foldl (deliver system) w evs)
  = alter (fun o => foldl (fun o ev => seq_append (ev_entry ev) o) o evs)
      (_log_entries (self w)) (heap w).
Proof.
  revert w. induction evs as [|ev evs IH]; intros w; simpl.
  - symmetry. apply list_alter_id. reflexivity.
  - rewrite IH. simpl. now rewrite list_alter_alter_eq.
Qed.

Section Records.

Variable record_separator : char.
Variable escape_formatting : text -> text.
Variable json_loads : text -> option pyval.

Abbreviation decode_record' := (decode_record escape_formatting json_loads).
Abbreviation log_rich_event' := (log_rich_event escape_formatting json_loads).
Abbreviation log_rich_loop' :=
  (log_rich_loop record_separator escape_formatting json_loads).
Abbreviation drain' := (drain record_separator escape_formatting json_loads).

Lemma log_rich_event_decode system r w :
  log_rich_event' system r w
  = match decode_record' r with
    | Done ev => (Done tt, deliver system w ev)
    | Raised e => (Raised e, w)
    | OutOfFuel => (OutOfFuel, w)
    end.
Proof.
  unfold log_rich_event, decode_record, invalid_json.
  set (event := match json_loads r with Some e => e | None => _ end).
  clearbody event. unfold mbind, M_bind, outcome_bind, lift.
  destruct (py_pop event (txt "text") None) as [[t e1]|e|]; try reflexivity.
  destruct (py_pop e1 (txt "namespace") (Some PNone)) as [[ns e2]|e|];
    try reflexivity.
  destruct (py_pop e2 (txt "level") None) as [[ln e3]|e|]; try reflexivity.
  destruct (levelWithName ln) as [lv|e|]; try reflexivity.
  destruct (py_kwargs e3) as [kw|e|]; try reflexivity.
  destruct (dict_has _ kw || dict_has _ kw); try reflexivity.
  unfold deliver. simpl. now destruct (bool_decide _).
Qed.

Lemma decode_record_answers r : decode_record' r ≠ OutOfFuel.
Proof.
  unfold decode_record.
  set (event := match json_loads r with Some e => e | None => _ end).
  clearbody event. unfold mbind, outcome_bind.
  assert (Hpop : forall e k d, py_pop e k d ≠ OutOfFuel).
  { intros e k d. destruct e; simpl; try discriminate.
    destruct (dict_get k d0), d; discriminate. }
  destruct (py_pop event (txt "text") None) as [[t e1]|e|] eqn:H1;
    [|discriminate|now apply Hpop in H1].
  destruct (py_pop e1 (txt "namespace") (Some PNone)) as [[ns e2]|e|] eqn:H2;
    [|discriminate|now apply Hpop in H2].
  destruct (py_pop e2 (txt "level") None) as [[ln e3]|e|] eqn:H3;
    [|discriminate|now apply Hpop in H3].
  destruct (levelWithName ln) as [lv|e|] eqn:H4; [|discriminate|].
  - destruct e3; simpl; try discriminate.
    destruct (dict_has _ d || dict_has _ d); discriminate.
  - unfold levelWithName in H4. destruct ln; try discriminate.
    repeat case_decide; discriminate.
Qed.

Lemma loop_drain fuel system w buf :
  _log_data (self w) = Some buf ->
  (length buf < fuel)%nat ->
  log_rich_loop' fuel system w
  = drain' system (fst (split_all record_separator buf))
      (snd (split_all record_separator buf)) w.
Proof.
  revert w buf. induction fuel as [|fuel IH]; intros w buf Hbuf Hlen; [lia|].
  simpl log_rich_loop.
  rewrite (bind_done _ _ w buf w)
    by (unfold get_log_data, get, mbind, M_bind; now rewrite Hbuf).
  destruct (str_contains record_separator buf) eqn:Hc.
  - rewrite (split_all_step _ _ Hc).
    pose proof (str_split1_shorter _ _ Hc) as Hlt.
    pose proof (split_all_rebuild record_separator
                  (snd (str_split1 record_separator buf))) as Hre.
    destruct (str_split1 record_separator buf) as [r rest]. simpl in *.
    rewrite Hre. unfold mbind, M_bind, set_self. simpl.
    rewrite !log_rich_event_decode.
    destruct (decode_record' r) as [ev|e|]; try reflexivity.
    apply IH; [reflexivity | lia].
  - rewrite (split_all_no_sep _ _ Hc). reflexivity.
Qed.

Lemma drain_decoded system rs evs t w :
  Forall2 (fun r ev => decode_record' r = Done ev) rs evs ->
  _log_data (self w) = Some (frames record_separator rs ++ t) ->
  drain' system rs t w
  = (Done tt,
     world_with_self (with_log_data (Some t)) (foldl (deliver system) w evs)).
Proof.
  intros H. revert w. induction H as [|r ev rs evs Hr Hrs IH]; intros w Hw.
  - simpl. now rewrite world_with_log_data_id.
  - simpl. unfold mbind, M_bind, set_self. simpl.
    rewrite log_rich_event_decode, Hr.
    rewrite IH by reflexivity.
    f_equal.
    exact (f_equal (world_with_self (with_log_data (Some t)))
             (foldl_deliver_with_log_data system _ evs (deliver system w ev))).
Qed.

Lemma drain_raised system good evs r e more t w :
  Forall2 (fun r ev => decode_record' r = Done ev) good evs ->
  decode_record' r = Raised e ->
  _log_data (self w) = Some (frames record_separator (good ++ r :: more) ++ t) ->
  drain' system (good ++ r :: more) t w
  = (Raised e,
     world_with_self
       (with_log_data (Some (frames record_separator more ++ t)))
       (foldl (deliver system) w evs)).
Proof.
  intros H Hr. revert w. induction H as [|g ev good evs Hg Hgood IH]; intros w Hw.
  - simpl. unfold mbind, M_bind, set_self. simpl.
    now rewrite log_rich_event_decode, Hr.
  - simpl. unfold mbind, M_bind, set_self. simpl.
    rewrite log_rich_event_decode, Hg.
    rewrite IH by reflexivity.
    f_equal.
    exact (f_equal (world_with_self (with_log_data _))
             (foldl_deliver_with_log_data system _ evs (deliver system w ev))).
Qed.

Lemma drain_answers system rs t : answers (drain' system rs t).
Proof.
  induction rs as [|r rs IH]; intros w; simpl; [discriminate|].
  unfold mbind, M_bind, set_self. simpl.
  rewrite log_rich_event_decode.
  pose proof (decode_record_answers r) as Hr.
  destruct (decode_record' r); [apply IH|discriminate|contradiction].
Qed.

End Records.

(** ** The branches of [log] *)

#[local] Arguments log_rich_loop : simpl never.
#[local] Arguments log_plain : simpl never.

Ltac enter_log Hfd Hpid :=
  unfold log, get_log_data, get, lift, mbind, M_bind; simpl;
  rewrite (bool_decide_eq_true_2 _ Hfd); simpl;
  rewrite Hpid; simpl.

Lemma plain_row_run system row w :
  plain_row system row w
  = (Done tt,
     if decide (strip row ≠ [])
     then deliver_line system w (strip row) else w).
Proof.
  unfold plain_row. simpl.
  destruct (decide (strip row = [])) as [He|Hne].
  - rewrite (bool_decide_eq_true_2 _ He).
    destruct (decide (strip row ≠ [])); [contradiction|reflexivity].
  - rewrite (bool_decide_eq_false_2 _ Hne).
    destruct (decide (strip row ≠ [])); [|contradiction].
    unfold logger_emit, entries_append, heap_append, get, mbind, M_bind.
    simpl. unfold deliver_line. now destruct (bool_decide _).
Qed.

Lemma for_each_rows system esc_rows w :
  for_each esc_rows (plain_row system) w
  = (Done tt,
     foldl (deliver_line system) w
       (filter (fun row => row ≠ []) (map strip esc_rows))).
Proof.
  revert w. induction esc_rows as [|row rows IH]; intros w; [reflexivity|].
  simpl for_each. rewrite map_cons, filter_cons.
  rewrite (bind_done _ _ _ _ _ (plain_row_run system row w)).
  rewrite IH. repeat case_decide; try contradiction; reflexivity.
Qed.

Section Branches.

Variable cb_logging_aware : text.
Variable record_separator : char.
Variable escape_formatting : text -> text.
Variable os_linesep : text.
Variable json_loads : text -> option pyval.
Variable repr_text : text -> text.

Abbreviation log' :=
  (log cb_logging_aware record_separator escape_formatting os_linesep
     json_loads repr_text).

Lemma log_plain_rows system t w :
  log_plain escape_formatting os_linesep system t w
  = (Done tt,
     foldl (deliver_line system) w (plain_rows escape_formatting os_linesep t)).
Proof. unfold log_plain, plain_rows. apply (for_each_rows system). Qed.

Lemma log_raw data w p :
  1 ∈ _log_fds (self w) ->
  pid (self w) = Some p ->
  log' 1 data w
  = (Done tt,
     {| self := self w;
        heap := alter (seq_append (PStr (repr repr_text data)))
                  (_log_entries (self w)) (heap w);
        sink := sink w ++
                [{| em_level := info;
                    em_format := PStr (repr repr_text data);
                    em_kwargs :=
                      [(txt "cb_namespace", PStr (txt "FD1"));
                       (txt "log_system",
                        PStr (system_label (LOGNAME (class_ (self w))) p))] |}];
        bus := bus w |}).
Proof. intros Hfd Hpid. enter_log Hfd Hpid. reflexivity. Qed.

Lemma log_undecodable fd b w p :
  fd ∈ _log_fds (self w) -> fd ≠ 1 ->
  pid (self w) = Some p ->
  decode_utf8 b = None ->
  log' fd (Bytes b) w = (Raised UnicodeDecodeError, w).
Proof.
  intros Hfd Hne Hpid Hb. enter_log Hfd Hpid.
  rewrite (bool_decide_eq_false_2 _ Hne). now rewrite Hb.
Qed.

Lemma log_decoded fd d t w :
  fd ≠ 1 -> data_text d = Some t -> log' fd d w = log' fd (Text t) w.
Proof.
  intros Hne Hd. unfold log, mbind, M_bind.
  destruct (get _log_fds w) as [[fds|e|] w1]; try reflexivity.
  destruct (negb _); [reflexivity|].
  destruct (get class_ w1) as [[cls|e|] w2]; try reflexivity.
  destruct (get pid w2) as [[p|e|] w3]; try reflexivity.
  destruct (lift _ w3) as [[system|e|] w4]; try reflexivity.
  rewrite (bool_decide_eq_false_2 _ Hne).
  destruct d as [b|t']; simpl in Hd.
  - now rewrite Hd.
  - now inversion Hd.
Qed.

Lemma log_marker fd t w p :
  fd ∈ _log_fds (self w) -> fd ≠ 1 ->
  pid (self w) = Some p ->
  _log_rich (self w) = None ->
  take (length cb_logging_aware) t = cb_logging_aware ->
  log' fd (Text t) w
  = (Done tt,
     world_with_self (with_log_data (Some []))
       (world_with_self (with_log_rich (Some true)) w)).
Proof.
  intros Hfd Hne Hpid Hrich Hm. enter_log Hfd Hpid.
  rewrite (bool_decide_eq_false_2 _ Hne). rewrite Hrich.
  now rewrite (bool_decide_eq_true_2 _ Hm).
Qed.

Lemma log_first_plain fd t w p :
  fd ∈ _log_fds (self w) -> fd ≠ 1 ->
  pid (self w) = Some p ->
  _log_rich (self w) = None ->
  take (length cb_logging_aware) t ≠ cb_logging_aware ->
  log' fd (Text t) w
  = (Done tt,
     foldl (deliver_line (system_label (LOGNAME (class_ (self w))) p))
       (world_with_self (with_log_rich (Some false)) w)
       (plain_rows escape_formatting os_linesep t)).
Proof.
  intros Hfd Hne Hpid Hrich Hm. enter_log Hfd Hpid.
  rewrite (bool_decide_eq_false_2 _ Hne). rewrite Hrich.
  rewrite (bool_decide_eq_false_2 _ Hm). simpl.
  apply log_plain_rows.
Qed.

Lemma log_plain_mode fd t w p :
  fd ∈ _log_fds (self w) -> fd ≠ 1 ->
  pid (self w) = Some p ->
  _log_rich (self w) = Some false ->
  log' fd (Text t) w
  = (Done tt,
     foldl (deliver_line (system_label (LOGNAME (class_ (self w))) p)) w
       (plain_rows escape_formatting os_linesep t)).
Proof.
  intros Hfd Hne Hpid Hrich. enter_log Hfd Hpid.
  rewrite (bool_decide_eq_false_2 _ Hne). rewrite Hrich. simpl.
  rewrite Hrich. simpl. apply log_plain_rows.
Qed.

Lemma log_structured fd t w p buf :
  fd ∈ _log_fds (self w) -> fd ≠ 1 ->
  pid (self w) = Some p ->
  _log_rich (self w) = Some true ->
  _log_data (self w) = Some buf ->
  log' fd (Text t) w
  = drain record_separator escape_formatting json_loads
      (system_label (LOGNAME (class_ (self w))) p)
      (fst (split_all record_separator (buf ++ t)))
      (snd (split_all record_separator (buf ++ t)))
      (world_with_self (with_log_data (Some (buf ++ t))) w).
Proof.
  intros Hfd Hne Hpid Hrich Hbuf. enter_log Hfd Hpid.
  rewrite (bool_decide_eq_false_2 _ Hne). rewrite Hrich. simpl.
  rewrite Hrich. simpl. rewrite Hbuf. simpl.
  apply (loop_drain record_separator escape_formatting json_loads);
    [reflexivity | lia].
Qed.

End Branches.

(** ** Decoding a JSON object *)

Lemma dict_get_del_ne k k' d :
  k ≠ k' -> dict_get k (dict_del k' d) = dict_get k d.
Proof.
  intros Hne. induction d as [|[k0 v] d IH]; simpl; [reflexivity|].
  destruct (decide (k0 = k')) as [->|H0]; simpl.
  - rewrite IH. destruct (decide (k' = k)); [congruence|reflexivity].
  - now rewrite IH.
Qed.

Lemma dict_get_del k d : dict_get k (dict_del k d) = None.
Proof.
  induction d as [|[k0 v] d IH]; simpl; [reflexivity|].
  destruct (decide (k0 = k)) as [->|H0]; simpl; [exact IH|].
  destruct (decide (k0 = k)); [contradiction|exact IH].
Qed.

Lemma dict_del_absent k d : dict_get k d = None -> dict_del k d = d.
Proof.
  induction d as [|[k0 v] d IH]; simpl; [reflexivity|].
  destruct (decide (k0 = k)); [discriminate|].
  intros H. now rewrite IH.
Qed.

Lemma levelWithName_cases name :
  (exists lv, levelWithName name = Done lv)
  \/ levelWithName name = Raised (InvalidLogLevelError name).
Proof.
  unfold levelWithName. destruct name; auto.
  repeat case_decide; eauto.
Qed.

Lemma pop_namespace d :
  py_pop (PDict d) (txt "namespace") (Some PNone)
  = Done (default PNone (dict_get (txt "namespace") d),
          PDict (dict_del (txt "namespace") d)).
Proof.
  simpl. destruct (dict_get (txt "namespace") d) eqn:H; simpl; [reflexivity|].
  now rewrite dict_del_absent.
Qed.

Section DecodeFacts.

Variable escape_formatting : text -> text.
Variable json_loads : text -> option pyval.

Lemma decode_record_invalid r :
  json_loads r = None ->
  decode_record escape_formatting json_loads r
  = Done (degraded escape_formatting r).
Proof. intros H. unfold decode_record. rewrite H. reflexivity. Qed.

Lemma decode_record_object r d tv lv :
  json_loads r = Some (PDict d) ->
  dict_get (txt "text") d = Some tv ->
  dict_get (txt "level") d = Some lv ->
  decode_record escape_formatting json_loads r
  = match levelWithName lv with
    | Done level =>
        if dict_has (txt "log_system") (extras d)
           || dict_has (txt "cb_namespace") (extras d)
        then Raised TypeError
        else Done {| ev_level := level;
                     ev_text := tv;
                     ev_namespace :=
                       default PNone (dict_get (txt "namespace") d);
                     ev_extra := extras d;
                     ev_entry := PDict (extras d) |}
    | Raised e => Raised e
    | OutOfFuel => OutOfFuel
    end.
Proof.
  intros Hr Ht Hl. unfold decode_record. rewrite Hr.
  unfold mbind at 1, outcome_bind at 1. simpl py_pop. rewrite Ht.
  unfold mbind at 1, outcome_bind at 1. rewrite pop_namespace.
  unfold mbind at 1, outcome_bind at 1. simpl py_pop.
  rewrite !dict_get_del_ne by discriminate. rewrite Hl.
  unfold mbind, outcome_bind. fold (extras d).
  destruct (levelWithName lv); reflexivity.
Qed.

Lemma decode_record_no_text r d :
  json_loads r = Some (PDict d) ->
  dict_get (txt "text") d = None ->
  decode_record escape_formatting json_loads r = Raised (KeyError (txt "text")).
Proof. intros Hr Ht. unfold decode_record. rewrite Hr. simpl. now rewrite Ht. Qed.

Lemma decode_record_no_level r d tv :
  json_loads r = Some (PDict d) ->
  dict_get (txt "text") d = Some tv ->
  dict_get (txt "level") d = None ->
  decode_record escape_formatting json_loads r = Raised (KeyError (txt "level")).
Proof.
  intros Hr Ht Hl. unfold decode_record. rewrite Hr.
  unfold mbind at 1, outcome_bind at 1. simpl py_pop. rewrite Ht.
  unfold mbind at 1, outcome_bind at 1. rewrite pop_namespace.
  unfold mbind at 1, outcome_bind at 1. simpl py_pop.
  rewrite !dict_get_del_ne by discriminate. now rewrite Hl.
Qed.

End DecodeFacts.

Lemma extras_stripped d :
  dict_get (txt "text") (extras d) = None
  /\ dict_get (txt "namespace") (extras d) = None
  /\ dict_get (txt "level") (extras d) = None.
Proof.
  unfold extras. repeat split.
  - rewrite !dict_get_del_ne by discriminate. apply dict_get_del.
  - rewrite dict_get_del_ne by discriminate. apply dict_get_del.
  - apply dict_get_del.
Qed.

(** ** Every call of [log] *)

Section EveryCall.

Variable cb_logging_aware : text.
Variable record_separator : char.
Variable escape_formatting : text -> text.
Variable os_linesep : text.
Variable json_loads : text -> option pyval.
Variable repr_text : text -> text.

Abbreviation log'' :=
  (log cb_logging_aware record_separator escape_formatting os_linesep
     json_loads repr_text).
Abbreviation after_logs' :=
  (after_logs cb_logging_aware record_separator escape_formatting os_linesep
     json_loads repr_text).

Lemma log_bad_fd fd d w :
  fd ∉ _log_fds (self w) -> log'' fd d w = (Raised AssertionError, w).
Proof.
  intros Hfd. unfold log, get, mbind, M_bind. simpl.
  now rewrite (bool_decide_eq_false_2 _ Hfd).
Qed.

Lemma log_no_pid fd d w :
  fd ∈ _log_fds (self w) -> pid (self w) = None ->
  log'' fd d w = (Raised TypeError, w).
Proof. intros Hfd Hpid. enter_log Hfd Hpid. reflexivity. Qed.

Lemma log_structured_no_buffer fd t w p :
  fd ∈ _log_fds (self w) -> fd ≠ 1 ->
  pid (self w) = Some p ->
  _log_rich (self w) = Some true ->
  _log_data (self w) = None ->
  log'' fd (Text t) w = (Raised AttributeError, w).
Proof.
  intros Hfd Hne Hpid Hrich Hbuf. enter_log Hfd Hpid.
  rewrite (bool_decide_eq_false_2 _ Hne). rewrite Hrich. simpl.
  rewrite Hrich. simpl. now rewrite Hbuf.
Qed.

Lemma log_cases fd d w :
  (exists e, log'' fd d w = (Raised e, w))
  \/ (exists p, fd = 1 /\ 1 ∈ _log_fds (self w) /\ pid (self w) = Some p)
  \/ (exists p t,
        fd ∈ _log_fds (self w) /\ fd ≠ 1 /\ pid (self w) = Some p
        /\ log'' fd d w = log'' fd (Text t) w).
Proof.
  destruct (decide (fd ∈ _log_fds (self w))) as [Hfd|Hfd];
    [|left; eexists; now apply log_bad_fd].
  destruct (pid (self w)) as [p|] eqn:Hpid;
    [|left; eexists; now apply log_no_pid].
  destruct (decide (fd = 1)) as [->|Hne]; [right; left; eauto|].
  destruct (data_text d) as [t|] eqn:Hd.
  - right. right. exists p, t. repeat split; auto.
    now apply log_decoded.
  - left. destruct d as [b|t]; [|discriminate]. eexists.
    now apply (log_undecodable _ _ _ _ _ _ fd b w p).
Qed.

(** [log] never exhausts the bound of its loop. *)
Lemma log_never_out_of_fuel fd d : answers (log'' fd d).
Proof.
  intros w.
  destruct (log_cases fd d w) as [[e He]|[(p & -> & Hfd & Hpid)|
    (p & t & Hfd & Hne & Hpid & Ht)]].
  - now rewrite He.
  - now rewrite (log_raw _ _ _ _ _ _ d w p Hfd Hpid).
  - rewrite Ht. destruct (_log_rich (self w)) as [[|]|] eqn:Hrich.
    + destruct (_log_data (self w)) as [buf|] eqn:Hbuf.
      * rewrite (log_structured _ _ _ _ _ _ fd t w p buf) by assumption.
        apply drain_answers.
      * now rewrite (log_structured_no_buffer fd t w p).
    + now rewrite (log_plain_mode _ _ _ _ _ _ fd t w p).
    + destruct (decide (take (length cb_logging_aware) t = cb_logging_aware)).
      * now rewrite (log_marker _ _ _ _ _ _ fd t w p).
      * now rewrite (log_first_plain _ _ _ _ _ _ fd t w p).
Qed.

Lemma foldl_deliver_line_self system rows w :
  self (foldl (deliver_line system) w rows) = self w.
Proof.
  revert w. induction rows as [|row rows IH]; intros w; simpl; [reflexivity|].
  now rewrite IH.
Qed.

(** Once the mode is decided no call changes it. *)
Lemma log_mode_kept fd d w b :
  _log_rich (self w) = Some b ->
  _log_rich (self (snd (log'' fd d w))) = Some b.
Proof.
  intros Hb.
  destruct (log_cases fd d w) as [[e He]|[(p & -> & Hfd & Hpid)|
    (p & t & Hfd & Hne & Hpid & Ht)]].
  - now rewrite He.
  - now rewrite (log_raw _ _ _ _ _ _ d w p Hfd Hpid).
  - rewrite Ht. destruct b.
    + destruct (_log_data (self w)) as [buf|] eqn:Hbuf.
      * rewrite (log_structured _ _ _ _ _ _ fd t w p buf) by assumption.
        rewrite <- (loop_drain _ _ _ (S (length (buf ++ t))));
          [|reflexivity|lia].
        match goal with |- context [log_rich_loop _ _ _ ?n ?s ?w1] =>
          pose proof (mode_same_log_rich_loop record_separator
                        escape_formatting json_loads n s w1) as Hloop end.
        unfold mode_same in Hloop. rewrite Hloop. exact Hb.
      * now rewrite (log_structured_no_buffer fd t w p).
    + rewrite (log_plain_mode _ _ _ _ _ _ fd t w p) by assumption.
      simpl. now rewrite foldl_deliver_line_self.
Qed.

Lemma after_logs_mode_kept calls w b :
  _log_rich (self w) = Some b ->
  _log_rich (self (after_logs' calls w)) = Some b.
Proof.
  revert w. induction calls as [|[fd d] calls IH]; intros w Hb; simpl.
  - exact Hb.
  - apply IH. now apply log_mode_kept.
Qed.

Lemma after_logs_frame calls w : log_frame w (after_logs' calls w).
Proof.
  revert w. induction calls as [|[fd d] calls IH]; intros w; simpl.
  - apply log_frame_refl.
  - eapply log_frame_trans; [|apply IH].
    apply (log_frame_log cb_logging_aware record_separator escape_formatting
             os_linesep json_loads repr_text fd d w).
Qed.

Lemma after_raw_logs ds w p :
  1 ∈ _log_fds (self w) ->
  pid (self w) = Some p ->
  self (after_logs' (map (pair 1) ds) w) = self w
  /\ heap (after_logs' (map (pair 1) ds) w)
     = alter (fun o => foldl (fun o d => seq_append (PStr (repr repr_text d)) o)
                         o ds)
         (_log_entries (self w)) (heap w).
Proof.
  revert w. induction ds as [|d ds IH]; intros w Hfd Hpid; simpl.
  - split; [reflexivity|]. symmetry. now apply list_alter_id.
  - rewrite (log_raw _ _ _ _ _ _ d w p Hfd Hpid). simpl.
    match goal with |- context [after_logs' _ ?w1] =>
      destruct (IH w1 Hfd Hpid) as [Hs Hh] end.
    rewrite Hs, Hh. simpl. split; [reflexivity|].
    now rewrite list_alter_alter_eq.
Qed.

End EveryCall.

(** ** The bounded history *)

Lemma seq_append_step (K : nat) (o : SeqObj) (x : pyval) :
  maxlen o = Some K ->
  (length (items o) <= K)%nat ->
  items (seq_append x o)
  = drop (length (items o ++ [x]) - K) (items o ++ [x])
  /\ (length (items (seq_append x o)) <= K)%nat
  /\ maxlen (seq_append x o) = Some K.
Proof.
  intros Hm Hlen. unfold seq_append. simpl. rewrite Hm.
  rewrite length_app. simpl.
  destruct (K <? length (items o) + 1)%nat eqn:Hk.
  - apply Nat.ltb_lt in Hk.
    replace (length (items o) + 1 - K)%nat with 1%nat by lia.
    split; [|split]; [now destruct (items o ++ [x]) | | reflexivity].
    destruct (items o ++ [x]) eqn:E; simpl; [lia|].
    apply (f_equal length) in E. rewrite length_app in E. simpl in E. lia.
  - apply Nat.ltb_ge in Hk.
    replace (length (items o) + 1 - K)%nat with 0%nat by lia.
    split; [|split]; [reflexivity | | reflexivity].
    rewrite length_app. simpl. lia.
Qed.

Lemma deque_appends (K : nat) (o : SeqObj) (xs : list pyval) :
  maxlen o = Some K ->
  items o = [] ->
  let o' := foldl (fun o x => seq_append x o) o xs in
  items o' = drop (length xs - K) xs
  /\ (length (items o') <= K)%nat
  /\ maxlen o' = Some K.
Proof.
  intros Hm Hi. induction xs as [|x xs IH] using rev_ind; simpl.
  - rewrite Hi. split; [|split]; [reflexivity | simpl; lia | assumption].
  - rewrite foldl_snoc. simpl in IH. destruct IH as (I1 & I2 & I3).
    destruct (seq_append_step K _ x I3 I2) as (S1 & S2 & S3).
    split; [|split]; [|assumption|assumption].
    rewrite S1, I1, !length_app, length_drop. simpl.
    rewrite <- (drop_app_le xs [x] (length xs - K)) by lia.
    rewrite drop_drop. f_equal. lia.
Qed.

(** ** Chunks in Structured mode *)

Lemma well_formed_decodes escape_formatting json_loads r ev :
  well_formed json_loads r ev ->
  decode_record escape_formatting json_loads r = Done ev.
Proof.
  intros (d & tv & lv & level & Hr & Ht & Hl & Hlv & Hc1 & Hc2 & ->).
  rewrite (decode_record_object _ _ r d tv lv Hr Ht Hl), Hlv.
  now rewrite Hc1, Hc2.
Qed.

Lemma deliver_chain system d d' evs w :
  world_with_self (with_log_data d)
    (foldl (deliver system) (world_with_self (with_log_data d') w) evs)
  = world_with_self (with_log_data d) (foldl (deliver system) w evs).
Proof. now rewrite foldl_deliver_with_log_data. Qed.


Section Chunks.

Variable cb_logging_aware : text.
Variable record_separator : char.
Variable escape_formatting : text -> text.
Variable os_linesep : text.
Variable json_loads : text -> option pyval.
Variable repr_text : text -> text.

Abbreviation log3 :=
  (log cb_logging_aware record_separator escape_formatting os_linesep
     json_loads repr_text).
Abbreviation decode3 := (decode_record escape_formatting json_loads).

Lemma log_structured_decoded fd t w p buf rs evs tail :
  fd ∈ _log_fds (self w) -> fd ≠ 1 ->
  pid (self w) = Some p ->
  _log_rich (self w) = Some true ->
  _log_data (self w) = Some buf ->
  split_all record_separator (buf ++ t) = (rs, tail) ->
  Forall2 (fun r ev => decode3 r = Done ev) rs evs ->
  log3 fd (Text t) w
  = (Done tt,
     world_with_self (with_log_data (Some tail))
       (foldl (deliver (system_label (LOGNAME (class_ (self w))) p)) w evs)).
Proof.
  intros Hfd Hne Hpid Hrich Hbuf Hsplit Hdec.
  rewrite (log_structured _ _ _ _ _ _ fd t w p buf) by assumption.
  pose proof (split_all_rebuild record_separator (buf ++ t)) as Hre.
  rewrite Hsplit in *. simpl in *.
  rewrite (drain_decoded _ _ _ _ rs evs tail) by (simpl; congruence || assumption).
  f_equal. apply deliver_chain.
Qed.

Lemma log_structured_raised fd t w p buf good evs r e more tail :
  fd ∈ _log_fds (self w) -> fd ≠ 1 ->
  pid (self w) = Some p ->
  _log_rich (self w) = Some true ->
  _log_data (self w) = Some buf ->
  split_all record_separator (buf ++ t) = (good ++ r :: more, tail) ->
  Forall2 (fun r ev => decode3 r = Done ev) good evs ->
  decode3 r = Raised e ->
  log3 fd (Text t) w
  = (Raised e,
     world_with_self
       (with_log_data (Some (frames record_separator more ++ tail)))
       (foldl (deliver (system_label (LOGNAME (class_ (self w))) p)) w evs)).
Proof.
  intros Hfd Hne Hpid Hrich Hbuf Hsplit Hdec Hr.
  rewrite (log_structured _ _ _ _ _ _ fd t w p buf) by assumption.
  pose proof (split_all_rebuild record_separator (buf ++ t)) as Hre.
  rewrite Hsplit in *. simpl in *.
  rewrite (drain_raised _ _ _ _ good evs r e more tail)
    by (simpl; congruence || assumption).
  f_equal. apply deliver_chain.
Qed.

Lemma log_chunks_decoded fd p chunks ts :
  fd ≠ 1 ->
  Forall2 (fun c t => data_text c = Some t) chunks ts ->
  forall w buf rs evs tail,
    fd ∈ _log_fds (self w) ->
    pid (self w) = Some p ->
    _log_rich (self w) = Some true ->
    _log_data (self w) = Some buf ->
    str_contains record_separator buf = false ->
    split_all record_separator (buf ++ concat ts) = (rs, tail) ->
    Forall2 (fun r ev => decode3 r = Done ev) rs evs ->
    for_each chunks (log3 fd) w
    = (Done tt,
       world_with_self (with_log_data (Some tail))
         (foldl (deliver (system_label (LOGNAME (class_ (self w))) p)) w evs)).
Proof.
  intros Hne Hch.
  induction Hch as [|c t chunks ts Hc Hch IH];
    intros w buf rs evs tail Hfd Hpid Hrich Hbuf Hclean Hsplit Hdec.
  - simpl in *. rewrite app_nil_r, (split_all_no_sep _ _ Hclean) in Hsplit.
    inversion Hsplit; subst. inversion Hdec; subst. simpl.
    now rewrite world_with_log_data_id.
  - simpl concat in Hsplit. rewrite app_assoc, split_all_app in Hsplit.
    destruct (split_all record_separator (buf ++ t)) as [r1 t1] eqn:H1.
    simpl in Hsplit.
    destruct (split_all record_separator (t1 ++ concat ts)) as [r2 t2] eqn:H2.
    simpl in Hsplit. inversion Hsplit; subst. clear Hsplit.
    apply Forall2_app_inv_l in Hdec.
    destruct Hdec as (e1 & e2 & Hd1 & Hd2 & ->).
    simpl for_each.
    assert (Hstep : log3 fd c w
                    = (Done tt,
                       world_with_self (with_log_data (Some t1))
                         (foldl (deliver
                                   (system_label (LOGNAME (class_ (self w))) p))
                            w e1))).
    { rewrite (log_decoded _ _ _ _ _ _ fd c t w Hne Hc).
      now apply (log_structured_decoded fd t w p buf r1 e1 t1). }
    rewrite (bind_done _ _ _ _ _ Hstep).
    pose proof (split_all_tail_no_sep record_separator (buf ++ t)) as Ht1.
    rewrite H1 in Ht1. simpl in Ht1.
    rewrite (IH _ t1 r2 e2 tail); simpl;
      rewrite ?foldl_deliver_self; try assumption; try reflexivity.
    rewrite foldl_app. f_equal. apply deliver_chain.
Qed.

End Chunks.

(** * The claims *)

Section Claims.

Variable cb_logging_aware : text.
Variable record_separator : char.
Variable escape_formatting : text -> text.
Variable os_linesep : text.
Variable json_loads : text -> option pyval.
Variable repr_text : text -> text.

Abbreviation Log :=
  (log cb_logging_aware record_separator escape_formatting os_linesep
     json_loads repr_text).
Abbreviation AfterLogs :=
  (after_logs cb_logging_aware record_separator escape_formatting os_linesep
     json_loads repr_text).

(** C1, as amended: [log] does not consult the status of the worker.  A
    call made once the worker is [exited] is handled exactly as the same
    call made before: same outcome, same entries, emissions and
    publications, and the status is left as it was. *)
Theorem log_ignores_status s fd data w :
  Log fd data (world_with_self (with_status s) w)
  = (fst (Log fd data w),
     world_with_self (with_status s) (snd (Log fd data w))).
Proof. apply status_blind_log. Qed.

(** C10: a chunk on the raw channel (file descriptor 1) gives exactly one
    entry, the [repr] of the chunk, appended to the history and emitted
    to the logger under the namespace [FD1]; nothing is published, and
    the attributes of the worker, among them the decoder mode and the
    accumulation buffer, and every other object of the heap stay as they
    were.  The chunk is never split, whatever it holds. *)
Theorem raw_channel_is_opaque data w p o :
  1 ∈ _log_fds (self w) ->
  pid (self w) = Some p ->
  heap w !! _log_entries (self w) = Some o ->
  exists w',
    Log 1 data w = (Done tt, w')
    /\ heap w' !! _log_entries (self w)
       = Some (seq_append (PStr (repr repr_text data)) o)
    /\ (forall r, r ≠ _log_entries (self w) -> heap w' !! r = heap w !! r)
    /\ sink w'
       = sink w ++
         [{| em_level := info;
             em_format := PStr (repr repr_text data);
             em_kwargs :=
               [(txt "cb_namespace", PStr (txt "FD1"));
                (txt "log_system",
                 PStr (system_label (LOGNAME (class_ (self w))) p))] |}]
    /\ bus w' = bus w
    /\ self w' = self w.
Proof.
  intros Hfd Hpid Ho. eexists.
  split; [apply (log_raw _ _ _ _ _ _ data w p Hfd Hpid)|]. simpl.
  split; [|split; [|auto]].
  - now rewrite list_lookup_alter_eq, Ho.
  - intros r Hr. now apply list_lookup_alter_ne.
Qed.


(** C3, as amended: on the first chunk of the cooperative channel, a chunk
    that starts with the protocol marker sets the mode to Structured and
    is discarded whole, marker and whatever follows it, leaving an empty
    accumulation buffer; any other chunk sets the mode to PlainText and
    is handled in full as plain text.  A chunk shorter than the marker,
    such as the first half of a marker cut in two, is plain text.  The
    mode is then decided, and no later call changes it. *)
Theorem first_chunk_decides_mode fd d t w p :
  fd ∈ _log_fds (self w) -> fd ≠ 1 ->
  pid (self w) = Some p ->
  data_text d = Some t ->
  _log_rich (self w) = None ->
  (take (length cb_logging_aware) t = cb_logging_aware ->
     Log fd d w
     = (Done tt,
        world_with_self (with_log_data (Some []))
          (world_with_self (with_log_rich (Some true)) w)))
  /\ (take (length cb_logging_aware) t ≠ cb_logging_aware ->
        Log fd d w
        = (Done tt,
           foldl (deliver_line (system_label (LOGNAME (class_ (self w))) p))
             (world_with_self (with_log_rich (Some false)) w)
             (plain_rows escape_formatting os_linesep t)))
  /\ ((length t < length cb_logging_aware)%nat ->
        _log_rich (self (snd (Log fd d w))) = Some false)
  /\ (exists b,
        _log_rich (self (snd (Log fd d w))) = Some b
        /\ forall calls,
             _log_rich (self (AfterLogs calls (snd (Log fd d w)))) = Some b).
Proof.
  intros Hfd Hne Hpid Hd Hrich.
  rewrite (log_decoded _ _ _ _ _ _ fd d t w Hne Hd).
  assert (Hmark : take (length cb_logging_aware) t = cb_logging_aware ->
                  Log fd (Text t) w
                  = (Done tt,
                     world_with_self (with_log_data (Some []))
                       (world_with_self (with_log_rich (Some true)) w)))
    by (intros Hm; now apply (log_marker _ _ _ _ _ _ fd t w p)).
  assert (Hplain : take (length cb_logging_aware) t ≠ cb_logging_aware ->
                   Log fd (Text t) w
                   = (Done tt,
                      foldl (deliver_line
                               (system_label (LOGNAME (class_ (self w))) p))
                        (world_with_self (with_log_rich (Some false)) w)
                        (plain_rows escape_formatting os_linesep t)))
    by (intros Hm; now apply (log_first_plain _ _ _ _ _ _ fd t w p)).
  split; [exact Hmark|]. split; [exact Hplain|]. split.
  - intros Hlen. rewrite Hplain.
    + simpl. now rewrite foldl_deliver_line_self.
    + intros Hm. apply (f_equal length) in Hm.
      rewrite length_take in Hm. lia.
  - destruct (decide (take (length cb_logging_aware) t = cb_logging_aware))
      as [Hm|Hm].
    + exists true. rewrite (Hmark Hm). split; [reflexivity|].
      intros calls. now apply after_logs_mode_kept.
    + exists false. rewrite (Hplain Hm).
      assert (Hb : _log_rich
                     (self (foldl (deliver_line
                              (system_label (LOGNAME (class_ (self w))) p))
                        (world_with_self (with_log_rich (Some false)) w)
                        (plain_rows escape_formatting os_linesep t)))
                   = Some false)
        by now rewrite foldl_deliver_line_self.
      split; [exact Hb|].
      intros calls. now apply after_logs_mode_kept.
Qed.

(** C4, as amended: in Structured mode a raw record that is not JSON never
    makes [log] raise.  Each such record becomes a degraded event of level
    [warn] whose text is [INVALID JSON: ] followed by the record passed
    through [escape_formatting]; it is emitted, appended to the history as
    an empty dict and published like any other event. *)
Theorem invalid_json_is_degraded fd d t w p buf rs tail :
  fd ∈ _log_fds (self w) -> fd ≠ 1 ->
  pid (self w) = Some p ->
  _log_rich (self w) = Some true ->
  _log_data (self w) = Some buf ->
  data_text d = Some t ->
  buf ++ t = frames record_separator rs ++ tail ->
  Forall (fun r => str_contains record_separator r = false) rs ->
  str_contains record_separator tail = false ->
  Forall (fun r => json_loads r = None) rs ->
  let system := system_label (LOGNAME (class_ (self w))) p in
  exists w',
    Log fd d w = (Done tt, w')
    /\ w' = world_with_self (with_log_data (Some tail))
              (foldl (deliver system) w (map (degraded escape_formatting) rs))
    /\ sink w'
       = sink w ++
         map (fun r =>
                {| em_level := warn;
                   em_format :=
                     PStr (txt "INVALID JSON: " ++ escape_formatting r);
                   em_kwargs := [(txt "log_system", PStr system);
                                 (txt "cb_namespace", PNone)] |}) rs.
Proof.
  intros Hfd Hne Hpid Hrich Hbuf Hd Hstream Hrs Htail Hbad system.
  eexists. split; [|split; [reflexivity|]].
  - rewrite (log_decoded _ _ _ _ _ _ fd d t w Hne Hd).
    apply (log_structured_decoded _ _ _ _ _ _ fd t w p buf rs); try assumption.
    + rewrite Hstream. now apply split_all_frames.
    + clear Hstream Hrs. induction Hbad as [|r rs Hr Hbad IH]; constructor.
      * now apply decode_record_invalid.
      * exact IH.
  - simpl. rewrite foldl_deliver_sink, map_map. reflexivity.
Qed.

(** C9: in Structured mode a record that is a JSON object with [text] and
    [level] whose level does not resolve makes [log] raise
    [InvalidLogLevelError] to its caller.  The records before it in the
    buffer have been delivered; for the record itself nothing is emitted,
    appended or published, and what follows it stays in the buffer. *)
Theorem unresolvable_level_is_raised
    fd d t w p buf good evs r more tail dct tv lv :
  fd ∈ _log_fds (self w) -> fd ≠ 1 ->
  pid (self w) = Some p ->
  _log_rich (self w) = Some true ->
  _log_data (self w) = Some buf ->
  data_text d = Some t ->
  buf ++ t = frames record_separator (good ++ r :: more) ++ tail ->
  Forall (fun r => str_contains record_separator r = false)
    (good ++ r :: more) ->
  str_contains record_separator tail = false ->
  Forall2 (well_formed json_loads) good evs ->
  json_loads r = Some (PDict dct) ->
  dict_get (txt "text") dct = Some tv ->
  dict_get (txt "level") dct = Some lv ->
  (forall level, levelWithName lv ≠ Done level) ->
  let system := system_label (LOGNAME (class_ (self w))) p in
  exists w',
    Log fd d w = (Raised (InvalidLogLevelError lv), w')
    /\ w' = world_with_self
              (with_log_data (Some (frames record_separator more ++ tail)))
              (foldl (deliver system) w evs)
    /\ sink w' = sink w ++ map (emission_of system) evs.
Proof.
  intros Hfd Hne Hpid Hrich Hbuf Hd Hstream Hrs Htail Hgood Hr Ht Hl Hlv system.
  eexists. split; [|split; [reflexivity|]].
  - rewrite (log_decoded _ _ _ _ _ _ fd d t w Hne Hd).
    apply (log_structured_raised _ _ _ _ _ _ fd t w p buf good evs r);
      try assumption.
    + rewrite Hstream. now apply split_all_frames.
    + eapply Forall2_impl; [exact Hgood|].
      intros r0 ev0. apply well_formed_decodes.
    + rewrite (decode_record_object _ _ r dct tv lv Hr Ht Hl).
      destruct (levelWithName_cases lv) as [[level Hlevel]| ->];
        [now apply Hlv in Hlevel|reflexivity].
  - simpl. now rewrite foldl_deliver_sink.
Qed.

(** Chunking of decodable chunks: in Structured mode, let the chunks of the
    cooperative channel each be decodable on its own (text, or bytes that are valid
    UTF-8 by themselves) and let the buffer followed by their decoded
    texts be N well-formed records, each ended by the separator, followed
    by a fragment without separator.  Then the calls of [log] on the
    chunks, however the text is cut into chunks, all return, deliver
    exactly the N events of the records in their order, and leave the
    fragment in the accumulation buffer, where it waits for the next
    call without having been treated as a record. *)
Theorem structured_framing_is_chunking_independent
    fd chunks ts w p buf rs evs tail :
  fd ∈ _log_fds (self w) -> fd ≠ 1 ->
  pid (self w) = Some p ->
  _log_rich (self w) = Some true ->
  _log_data (self w) = Some buf ->
  str_contains record_separator buf = false ->
  Forall2 (fun c t => data_text c = Some t) chunks ts ->
  buf ++ concat ts = frames record_separator rs ++ tail ->
  Forall (fun r => str_contains record_separator r = false) rs ->
  str_contains record_separator tail = false ->
  Forall2 (well_formed json_loads) rs evs ->
  let system := system_label (LOGNAME (class_ (self w))) p in
  exists w',
    for_each chunks (Log fd) w = (Done tt, w')
    /\ w' = world_with_self (with_log_data (Some tail))
              (foldl (deliver system) w evs)
    /\ sink w' = sink w ++ map (emission_of system) evs
    /\ length evs = length rs
    /\ _log_data (self w') = Some tail
    /\ (_log_topic (self w) ≠ [] ->
        bus w' = bus w ++ map (publication_of (_log_topic (self w))) evs).
Proof.
  intros Hfd Hne Hpid Hrich Hbuf Hclean Hch Hstream Hrs Htail Hwf system.
  eexists. split; [|split; [reflexivity|split; [|split; [|split]]]].
  - apply (log_chunks_decoded _ _ _ _ _ _ fd p chunks ts Hne Hch w buf rs);
      try assumption.
    + rewrite Hstream. now apply split_all_frames.
    + eapply Forall2_impl; [exact Hwf|].
      intros r0 ev0. apply well_formed_decodes.
  - simpl. now rewrite foldl_deliver_sink.
  - symmetry. eapply Forall2_length. exact Hwf.
  - reflexivity.
  - intros Htopic. simpl. now rewrite foldl_deliver_bus.
Qed.

(** C6: the history of a worker is a deque of capacity 10, whatever
    [keeplog] is.  For a history of capacity K that is empty, after K+1
    chunks on the raw channel, one append each, [getlog] hands out a new
    list with exactly K entries: those of the last K chunks, oldest
    first, the first one having been dropped.  This list is not the
    deque: no later call of [log] changes it. *)
Theorem history_is_bounded_fifo
    cls node_id id_ who_ keeplog w p K ds calls :
  1 ∈ _log_fds (self w) ->
  pid (self w) = Some p ->
  heap w !! _log_entries (self w) = Some {| maxlen := Some K; items := [] |} ->
  length ds = S K ->
  heap (__init__ cls node_id id_ who_ keeplog)
    !! _log_entries (self (__init__ cls node_id id_ who_ keeplog))
  = Some {| maxlen := Some 10%nat; items := [] |}
  /\ exists r w1,
       getlog (AfterLogs (map (pair 1) ds) w) = (Done r, w1)
       /\ heap_items r w1
          = tail (map (fun d => PStr (repr repr_text d)) ds)
       /\ length (heap_items r w1) = K
       /\ heap_items r (AfterLogs calls w1) = heap_items r w1.
Proof.
  intros Hfd Hpid Ho Hlen. split; [reflexivity|].
  destruct (after_raw_logs cb_logging_aware record_separator escape_formatting
              os_linesep json_loads repr_text ds w p Hfd Hpid) as [Hself Hheap].
  set (w2 := AfterLogs (map (pair 1) ds) w) in *.
  set (o := {| maxlen := Some K; items := [] |}) in *.
  set (xs := map (fun d => PStr (repr repr_text d)) ds).
  assert (Hfold : forall o0,
            foldl (fun o d => seq_append (PStr (repr repr_text d)) o) o0 ds
            = foldl (fun o x => seq_append x o) o0 xs).
  { unfold xs. clear. induction ds as [|d ds IH]; intros o0; simpl; auto. }
  assert (Hitems : heap_items (_log_entries (self w2)) w2 = tail xs).
  { unfold heap_items. rewrite Hself, Hheap, list_lookup_alter_eq, Ho. simpl.
    rewrite Hfold.
    destruct (deque_appends K o xs eq_refl eq_refl) as (Hi & _ & _).
    simpl in Hi. rewrite Hi. unfold xs. rewrite length_map, Hlen.
    replace (S K - K)%nat with 1%nat by lia.
    now destruct (map (fun d => PStr (repr repr_text d)) ds). }
  assert (Hlt : (_log_entries (self w2) < length (heap w2))%nat).
  { rewrite Hself, Hheap, length_alter. eapply lookup_lt_Some. exact Ho. }
  exists (length (heap w2)).
  eexists. split; [|split; [|split]].
  - unfold getlog, get, read, heap_alloc, mbind, M_bind. simpl. reflexivity.
  - unfold heap_items at 1. simpl.
    rewrite lookup_app_r, Nat.sub_diag by lia. simpl. exact Hitems.
  - unfold heap_items at 1. simpl.
    rewrite lookup_app_r, Nat.sub_diag by lia. simpl. rewrite Hitems.
    unfold xs. clear -Hlen. destruct ds as [|d0 ds0]; simpl in *; [lia|].
    rewrite length_map. lia.
  - match goal with |- heap_items _ (AfterLogs calls ?w1) = _ =>
      pose proof (after_logs_frame cb_logging_aware record_separator
                    escape_formatting os_linesep json_loads repr_text
                    calls w1) as Hfr end.
    destruct Hfr as (_ & _ & _ & _ & _ & _ & _ & _ & Hother).
    unfold heap_items. rewrite Hother; [reflexivity|]. simpl. lia.
Qed.

End Claims.

(** ** The claims on the sample worker *)

Lemma well_formed_entry_is_stripped json_loads r ev :
  well_formed json_loads r ev ->
  exists d, ev_entry ev = PDict d
            /\ dict_get (txt "text") d = None
            /\ dict_get (txt "level") d = None.
Proof.
  intros (d & tv & lv & level & _ & _ & _ & _ & _ & _ & ->).
  exists (extras d). simpl. pose proof (extras_stripped d). tauto.
Qed.

Lemma sample_hi_well_formed :
  well_formed Sample.json_loads (Sample.wire Sample.doc_hi) Sample.ev_hi.
Proof.
  exists [(txt "text", PStr (txt "hi")); (txt "level", PStr (txt "info"))],
    (PStr (txt "hi")), (PStr (txt "info")), info.
  repeat split.
Qed.

Lemma sample_bye_well_formed :
  well_formed Sample.json_loads (Sample.wire Sample.doc_bye) Sample.ev_bye.
Proof.
  exists [(txt "text", PStr (txt "bye")); (txt "level", PStr (txt "error"))],
    (PStr (txt "bye")), (PStr (txt "error")), error.
  repeat split.
Qed.

(** C1, the claim as stated fails: after the exit Deferred has fired and
    the status is [exited], a chunk on the raw channel is still emitted
    and appended to the history, and a chunk on the cooperative channel
    is still decoded, appended and published. *)
Lemma log_after_exit_is_processed :
  status (self Sample.exited_world) = exited
  /\ called (exit (self Sample.exited_world)) = true
  /\ heap_items 0 Sample.exited_world = []
  /\ (let r := Sample.log 1 (Bytes (Sample.ascii_bytes (txt "late")))
                 Sample.exited_world in
      fst r = Done tt
      /\ heap_items 0 (snd r) = [PStr (txt "b'late'")]
      /\ length (sink (snd r)) = 1%nat)
  /\ (let r := Sample.log 2 (Bytes (Sample.ascii_bytes (txt "late")))
                 Sample.exited_world in
      fst r = Done tt
      /\ heap_items 0 (snd r) = [PStr (txt "late")]
      /\ bus (snd r) = [{| pub_topic := Sample.topic;
                           pub_payload := PStr (txt "late") |}]).
Proof. vm_compute. repeat split. Qed.


(** C3, the claim as stated fails: a first chunk made of the marker
    followed by a complete record is discarded whole.  The record is
    neither buffered nor decoded, whereas the same record sent as a
    chunk of its own after the marker is delivered. *)
Lemma content_after_marker_is_dropped :
  Sample.log 2
    (Text (Sample.cb_logging_aware ++ Sample.wire Sample.doc_hi
           ++ [Sample.record_separator]))
    Sample.spawned
  = (Done tt, Sample.structured)
  /\ _log_data (self Sample.structured) = Some []
  /\ sink Sample.structured = []
  /\ heap_items 0 Sample.structured = []
  /\ length (sink (snd (Sample.log 2
                          (Text (Sample.wire Sample.doc_hi
                                 ++ [Sample.record_separator]))
                          Sample.structured))) = 1%nat.
Proof. vm_compute. repeat split. Qed.

(** C4, the claim as stated fails: [{}] and [{"text":"hi"}] are JSON
    objects that lack required keys; [log] raises [KeyError] on them and
    emits no degraded event. *)
Lemma record_without_keys_raises :
  Sample.json_loads (Sample.wire Sample.doc_empty) = Some (PDict [])
  /\ (let r := Sample.log 2
                 (Text (Sample.wire Sample.doc_empty
                        ++ [Sample.record_separator]))
                 Sample.structured in
      fst r = Raised (KeyError (txt "text")) /\ sink (snd r) = [])
  /\ (let r := Sample.log 2
                 (Text (Sample.wire Sample.doc_no_level
                        ++ [Sample.record_separator]))
                 Sample.structured in
      fst r = Raised (KeyError (txt "level")) /\ sink (snd r) = []).
Proof. vm_compute. repeat split. Qed.

(** C2, the code at a failing input: the UTF-8 bytes of one well-formed
    record and its separator, cut between the two bytes of U+00E9.  As one
    chunk they give one event.  As two chunks, each is decoded on its own
    before anything is buffered: both calls of [log] raise
    [UnicodeDecodeError], nothing reaches the accumulation buffer and no
    event is emitted, although [log] is there to take a message or a
    fragment of one. *)
Lemma chunk_cut_inside_character_loses_record :
  decode_utf8 (Sample.cafe_head ++ Sample.cafe_tail)
  = Some (Sample.wire Sample.doc_cafe ++ [Sample.record_separator])
  /\ length (sink (snd (Sample.log 2
                          (Bytes (Sample.cafe_head ++ Sample.cafe_tail))
                          Sample.structured))) = 1%nat
  /\ Sample.log 2 (Bytes Sample.cafe_head) Sample.structured
     = (Raised UnicodeDecodeError, Sample.structured)
  /\ Sample.log 2 (Bytes Sample.cafe_tail) Sample.structured
     = (Raised UnicodeDecodeError, Sample.structured).
Proof. vm_compute. repeat split. Qed.

(** C7, the code at a failing input: for the well-formed records
    [{"text":"hi","level":"info"}] and
    [{"text":"up","level":"debug","namespace":"net","port":8080}] the
    topic receives the text alone, but the entry appended to the history
    is the dict left after [text], [namespace] and [level] have been
    popped: [{}] and [{"port": 8080}], without level and without text. *)
Theorem structured_entry_is_stripped :
  (let r := Sample.log 2
              (Text (Sample.wire Sample.doc_hi ++ [Sample.record_separator]))
              Sample.structured in
   fst r = Done tt
   /\ heap_items 0 (snd r) = [PDict []]
   /\ bus (snd r) = [{| pub_topic := Sample.topic;
                        pub_payload := PStr (txt "hi") |}])
  /\ (let r := Sample.log 2
                 (Text (Sample.wire Sample.doc_rich
                        ++ [Sample.record_separator]))
                 Sample.structured in
      fst r = Done tt
      /\ heap_items 0 (snd r) = [PDict [(txt "port", PInt 8080)]]
      /\ bus (snd r) = [{| pub_topic := Sample.topic;
                           pub_payload := PStr (txt "up") |}]).
Proof. vm_compute. repeat split. Qed.

(** ** The hypotheses of the claims hold on the sample worker *)

Lemma raw_channel_is_opaque_witness :
  1 ∈ _log_fds (self Sample.spawned)
  /\ pid (self Sample.spawned) = Some 4711
  /\ exists w',
       Sample.log 1 (Bytes [x68; x69; x0a; x68; x6f]) Sample.spawned
       = (Done tt, w')
       /\ heap w' !! 0%nat
          = Some {| maxlen := Some 10%nat;
                    items := [PStr (txt "b'hi\nho'")] |}
       /\ bus w' = []
       /\ self w' = self Sample.spawned.
Proof.
  assert (Hfd : 1 ∈ _log_fds (self Sample.spawned))
    by (vm_compute; repeat constructor).
  split; [exact Hfd|]. split; [reflexivity|].
  destruct (raw_channel_is_opaque Sample.cb_logging_aware
              Sample.record_separator Sample.escape_formatting
              Sample.os_linesep Sample.json_loads Sample.repr_text
              (Bytes [x68; x69; x0a; x68; x6f]) Sample.spawned 4711
              {| maxlen := Some 10%nat; items := [] |} Hfd eq_refl eq_refl)
    as (w' & H1 & H2 & _ & _ & H5 & H6).
  exists w'. split; [exact H1|]. split; [exact H2|]. split; assumption.
Defined.


Lemma first_chunk_decides_mode_witness :
  2 ∈ _log_fds (self Sample.spawned)
  /\ _log_rich (self Sample.spawned) = None
  /\ Sample.log 2 (Text Sample.cb_logging_aware) Sample.spawned
     = (Done tt,
        world_with_self (with_log_data (Some []))
          (world_with_self (with_log_rich (Some true)) Sample.spawned)).
Proof.
  assert (Hfd : 2 ∈ _log_fds (self Sample.spawned))
    by (vm_compute; repeat constructor).
  split; [exact Hfd|]. split; [reflexivity|].
  apply (first_chunk_decides_mode Sample.cb_logging_aware
           Sample.record_separator Sample.escape_formatting
           Sample.os_linesep Sample.json_loads Sample.repr_text
           2 (Text Sample.cb_logging_aware) Sample.cb_logging_aware
           Sample.spawned 4711 Hfd);
    [lia|reflexivity|reflexivity|reflexivity|reflexivity].
Defined.

Lemma invalid_json_is_degraded_witness :
  2 ∈ _log_fds (self Sample.structured)
  /\ Sample.json_loads (txt "oops") = None
  /\ exists w',
       Sample.log 2 (Text (txt "oops" ++ [Sample.record_separator]))
         Sample.structured
       = (Done tt, w')
       /\ sink w'
          = [{| em_level := warn;
                em_format := PStr (txt "INVALID JSON: oops");
                em_kwargs :=
                  [(txt "log_system", PStr (txt "Router       4711"));
                   (txt "cb_namespace", PNone)] |}].
Proof.
  assert (Hfd : 2 ∈ _log_fds (self Sample.structured))
    by (vm_compute; repeat constructor).
  split; [exact Hfd|]. split; [reflexivity|].
  destruct (invalid_json_is_degraded Sample.cb_logging_aware
              Sample.record_separator Sample.escape_formatting
              Sample.os_linesep Sample.json_loads Sample.repr_text
              2 (Text (txt "oops" ++ [Sample.record_separator]))
              (txt "oops" ++ [Sample.record_separator])
              Sample.structured 4711 [] [txt "oops"] [] Hfd)
    as (w' & H1 & _ & H3);
    [lia|reflexivity|reflexivity|reflexivity|reflexivity|reflexivity
    |repeat constructor|reflexivity|repeat constructor|].
  exists w'. split; [exact H1|exact H3].
Defined.

Lemma unresolvable_level_is_raised_witness :
  2 ∈ _log_fds (self Sample.structured)
  /\ (forall level, levelWithName (PStr (txt "loud")) ≠ Done level)
  /\ exists w',
       Sample.log 2
         (Text (Sample.wire Sample.doc_hi ++ [Sample.record_separator]
                ++ Sample.wire Sample.doc_loud ++ [Sample.record_separator]
                ++ txt "rest"))
         Sample.structured
       = (Raised (InvalidLogLevelError (PStr (txt "loud"))), w')
       /\ sink w' = sink Sample.structured
                    ++ [emission_of (txt "Router       4711") Sample.ev_hi].
Proof.
  assert (Hfd : 2 ∈ _log_fds (self Sample.structured))
    by (vm_compute; repeat constructor).
  assert (Hlv : forall level, levelWithName (PStr (txt "loud")) ≠ Done level)
    by (intros level; vm_compute; discriminate).
  split; [exact Hfd|]. split; [exact Hlv|].
  destruct (unresolvable_level_is_raised Sample.cb_logging_aware
              Sample.record_separator Sample.escape_formatting
              Sample.os_linesep Sample.json_loads Sample.repr_text
              2
              (Text (Sample.wire Sample.doc_hi ++ [Sample.record_separator]
                     ++ Sample.wire Sample.doc_loud
                     ++ [Sample.record_separator] ++ txt "rest"))
              (Sample.wire Sample.doc_hi ++ [Sample.record_separator]
               ++ Sample.wire Sample.doc_loud
               ++ [Sample.record_separator] ++ txt "rest")
              Sample.structured 4711 []
              [Sample.wire Sample.doc_hi] [Sample.ev_hi]
              (Sample.wire Sample.doc_loud) [] (txt "rest")
              [(txt "text", PStr (txt "hi")); (txt "level", PStr (txt "loud"))]
              (PStr (txt "hi")) (PStr (txt "loud")) Hfd)
    as (w' & H1 & _ & H3);
    [lia|reflexivity|reflexivity|reflexivity|reflexivity|reflexivity
    |repeat constructor|reflexivity
    |repeat constructor; exact sample_hi_well_formed
    |reflexivity|reflexivity|reflexivity|exact Hlv|].
  exists w'. split; [exact H1|exact H3].
Defined.

Lemma structured_framing_is_chunking_independent_witness :
  2 ∈ _log_fds (self Sample.structured)
  /\ Forall2 (well_formed Sample.json_loads)
       [Sample.wire Sample.doc_hi; Sample.wire Sample.doc_bye]
       [Sample.ev_hi; Sample.ev_bye]
  /\ exists w',
       for_each
         [Bytes (Sample.ascii_bytes (take 10 (Sample.wire Sample.doc_hi)));
          Text (drop 10 (Sample.wire Sample.doc_hi)
                ++ [Sample.record_separator]
                ++ take 3 (Sample.wire Sample.doc_bye));
          Text (drop 3 (Sample.wire Sample.doc_bye)
                ++ [Sample.record_separator] ++ txt "par")]
         (Sample.log 2) Sample.structured
       = (Done tt, w')
       /\ sink w'
          = sink Sample.structured
            ++ map (emission_of (txt "Router       4711"))
                 [Sample.ev_hi; Sample.ev_bye]
       /\ _log_data (self w') = Some (txt "par").
Proof.
  assert (Hfd : 2 ∈ _log_fds (self Sample.structured))
    by (vm_compute; repeat constructor).
  assert (Hwf : Forall2 (well_formed Sample.json_loads)
                  [Sample.wire Sample.doc_hi; Sample.wire Sample.doc_bye]
                  [Sample.ev_hi; Sample.ev_bye])
    by (repeat constructor;
        [exact sample_hi_well_formed|exact sample_bye_well_formed]).
  split; [exact Hfd|]. split; [exact Hwf|].
  destruct (structured_framing_is_chunking_independent
              Sample.cb_logging_aware Sample.record_separator
              Sample.escape_formatting Sample.os_linesep Sample.json_loads
              Sample.repr_text 2
              [Bytes (Sample.ascii_bytes (take 10 (Sample.wire Sample.doc_hi)));
               Text (drop 10 (Sample.wire Sample.doc_hi)
                     ++ [Sample.record_separator]
                     ++ take 3 (Sample.wire Sample.doc_bye));
               Text (drop 3 (Sample.wire Sample.doc_bye)
                     ++ [Sample.record_separator] ++ txt "par")]
              [take 10 (Sample.wire Sample.doc_hi);
               drop 10 (Sample.wire Sample.doc_hi)
                 ++ [Sample.record_separator]
                 ++ take 3 (Sample.wire Sample.doc_bye);
               drop 3 (Sample.wire Sample.doc_bye)
                 ++ [Sample.record_separator] ++ txt "par"]
              Sample.structured 4711 []
              [Sample.wire Sample.doc_hi; Sample.wire Sample.doc_bye]
              [Sample.ev_hi; Sample.ev_bye] (txt "par") Hfd)
    as (w' & H1 & _ & H3 & _ & H5 & _);
    [lia|reflexivity|reflexivity|reflexivity|reflexivity
    |repeat constructor|reflexivity|repeat constructor|reflexivity
    |exact Hwf|].
  exists w'. split; [exact H1|]. split; [exact H3|exact H5].
Defined.

Lemma history_is_bounded_fifo_witness :
  1 ∈ _log_fds (self Sample.spawned)
  /\ length Sample.eleven = 11%nat
  /\ exists r w1,
       Sample.getlog
         (after_logs Sample.cb_logging_aware Sample.record_separator
            Sample.escape_formatting Sample.os_linesep Sample.json_loads
            Sample.repr_text (map (pair 1) Sample.eleven) Sample.spawned)
       = (Done r, w1)
       /\ heap_items r w1
          = tail (map (fun d => PStr (repr Sample.repr_text d)) Sample.eleven)
       /\ length (heap_items r w1) = 10%nat
       /\ heap_items r
            (after_logs Sample.cb_logging_aware Sample.record_separator
               Sample.escape_formatting Sample.os_linesep Sample.json_loads
               Sample.repr_text
               [(1, Bytes [x7a]); (2, Text (txt "later"))] w1)
          = heap_items r w1.
Proof.
  assert (Hfd : 1 ∈ _log_fds (self Sample.spawned))
    by (vm_compute; repeat constructor).
  split; [exact Hfd|]. split; [reflexivity|].
  destruct (history_is_bounded_fifo Sample.cb_logging_aware
              Sample.record_separator Sample.escape_formatting
              Sample.os_linesep Sample.json_loads Sample.repr_text
              RouterWorkerProcess (txt "n1") (txt "w1") (txt "me") None
              Sample.spawned 4711 10%nat Sample.eleven
              [(1, Bytes [x7a]); (2, Text (txt "later"))]
              Hfd eq_refl eq_refl eq_refl) as [_ H].
  exact H.
Defined.

(** * Further properties of the code *)

(** ** The capacity of the history *)

Lemma keeps_history_bound_refl w : keeps_history_bound w w.
Proof. intros K H. exact H. Qed.

Lemma keeps_history_bound_trans w1 w2 w3 :
  keeps_history_bound w1 w2 -> keeps_history_bound w2 w3 ->
  keeps_history_bound w1 w3.
Proof. intros H1 H2 K H. apply H2, H1, H. Qed.

Lemma bound_entries_append x : preserves keeps_history_bound (entries_append x).
Proof.
  intros w K (o & Ho & Hm & Hlen).
  destruct (seq_append_step K o x Hm Hlen) as (_ & H2 & H3).
  exists (seq_append x o). split; [|split; assumption].
  simpl. now rewrite list_lookup_alter_eq, Ho.
Qed.

Lemma bound_set_log_rich b :
  preserves keeps_history_bound (set_self (with_log_rich b)).
Proof. intros w K H. exact H. Qed.

Lemma bound_set_log_data d :
  preserves keeps_history_bound (set_self (with_log_data d)).
Proof. intros w K H. exact H. Qed.

Lemma bound_logger_emit level format kwargs :
  preserves keeps_history_bound (logger_emit level format kwargs).
Proof. intros w K H. exact H. Qed.

Lemma bound_publish topic payload :
  preserves keeps_history_bound (publish topic payload).
Proof. intros w K H. exact H. Qed.

Create HintDb bound.

#[local] Hint Resolve keeps_history_bound_refl bound_entries_append
  bound_set_log_rich bound_set_log_data bound_logger_emit bound_publish
  preserves_get preserves_ret preserves_raise preserves_out_of_fuel
  preserves_pure : bound.

Ltac bound_step :=
  match goal with
  | |- preserves _ (_ ≫= _) =>
      apply (preserves_bind keeps_history_bound keeps_history_bound_trans);
      [|intros]
  | |- preserves _ (for_each _ _) =>
      apply (preserves_for_each keeps_history_bound _ _
               keeps_history_bound_refl keeps_history_bound_trans); intros
  | |- preserves _ (if ?b then _ else _) => destruct b
  | |- preserves _ (match ?x with _ => _ end) => destruct x
  | |- preserves _ (let '(_, _) := ?x in _) => destruct x
  | |- preserves _ _ => solve [auto with bound]
  end.

Section Further.

Variable cb_logging_aware : text.
Variable record_separator : char.
Variable escape_formatting : text -> text.
Variable os_linesep : text.
Variable json_loads : text -> option pyval.
Variable repr_text : text -> text.

Abbreviation Log_ :=
  (log cb_logging_aware record_separator escape_formatting os_linesep
     json_loads repr_text).
Abbreviation AfterLogs_ :=
  (after_logs cb_logging_aware record_separator escape_formatting os_linesep
     json_loads repr_text).

Lemma bound_log_rich_loop fuel system :
  preserves keeps_history_bound
    (log_rich_loop record_separator escape_formatting json_loads fuel system).
Proof.
  induction fuel as [|fuel IH].
  - apply preserves_out_of_fuel, keeps_history_bound_refl.
  - unfold log_rich_loop.
    fold (log_rich_loop record_separator escape_formatting json_loads).
    unfold get_log_data, log_rich_event. repeat bound_step; exact IH.
Qed.

Lemma bound_log fd data : preserves keeps_history_bound (Log_ fd data).
Proof.
  unfold log, log_plain, plain_row, get_log_data.
  repeat bound_step; apply bound_log_rich_loop.
Qed.

Lemma bound_after_logs calls w :
  keeps_history_bound w (AfterLogs_ calls w).
Proof.
  revert w. induction calls as [|[fd d] calls IH]; intros w; simpl.
  - apply keeps_history_bound_refl.
  - eapply keeps_history_bound_trans; [apply bound_log|apply IH].
Qed.

(** Whatever calls of [log] a worker created by [__init__] receives, on
    whatever channel, with whatever data, before or after its process id
    is known and whether the calls return or raise, its history never
    holds more than ten entries. *)
Theorem history_never_exceeds_ten cls node_id id_ who_ keeplog n calls :
  let w0 := world_with_self (with_pid n)
              (__init__ cls node_id id_ who_ keeplog) in
  (length (heap_items (_log_entries (self w0)) (AfterLogs_ calls w0)) <= 10)%nat.
Proof.
  intros w0.
  assert (H0 : history_bounded 10 w0).
  { exists {| maxlen := Some 10%nat; items := [] |}. simpl. repeat split. lia. }
  destruct (bound_after_logs calls w0 10%nat H0) as (o & Ho & _ & Hlen).
  destruct (after_logs_frame cb_logging_aware record_separator
              escape_formatting os_linesep json_loads repr_text calls w0)
    as (_ & _ & _ & Ha & _).
  unfold heap_items. rewrite <- Ha, Ho. exact Hlen.
Qed.

(** A worker created by [__init__] accepts the channels 1 and 2 only, and
    keeps doing so: on any other channel [log] fails its assertion and
    changes nothing. *)
Theorem unknown_channel_is_refused
    cls node_id id_ who_ keeplog n calls fd data :
  fd ≠ 1 -> fd ≠ 2 ->
  let w := AfterLogs_ calls
             (world_with_self (with_pid n)
                (__init__ cls node_id id_ who_ keeplog)) in
  Log_ fd data w = (Raised AssertionError, w).
Proof.
  intros H1 H2 w. apply log_bad_fd.
  destruct (after_logs_frame cb_logging_aware record_separator
              escape_formatting os_linesep json_loads repr_text calls
              (world_with_self (with_pid n)
                 (__init__ cls node_id id_ who_ keeplog)))
    as (_ & _ & _ & _ & Hfds & _).
  unfold w. rewrite Hfds. simpl.
  intros Hin. apply elem_of_cons in Hin as [->|Hin]; [contradiction|].
  apply elem_of_cons in Hin as [->|Hin]; [contradiction|].
  now apply elem_of_nil in Hin.
Qed.

(** When the exit Deferred fires for a worker that is not in Structured
    mode, or whose accumulation buffer is empty, nothing is emitted: the
    only change is that the Deferred has fired, and the result of the
    notification is handed on unchanged. *)
Theorem exit_without_remainder_is_silent result w :
  exit (self w) = {| called := false; callbacks := [cb_dump_remaining_log] |} ->
  _log_rich (self w) ≠ Some true \/ _log_data (self w) = Some [] ->
  exit_fire escape_formatting os_linesep result w
  = (Done result, world_with_self (with_exit fired) w).
Proof.
  intros Hexit Hquiet.
  unfold exit_fire, get, mbind at 1, M_bind at 1. rewrite Hexit. simpl.
  unfold _dump_remaining_log, get_log_data, get, mbind, M_bind, set_self.
  simpl.
  destruct (decide (_log_rich (self w) = Some true)) as [Hr|Hr].
  - destruct Hquiet as [Hq|Hq]; [contradiction|].
    rewrite (bool_decide_eq_true_2 _ Hr). simpl. rewrite Hq. simpl.
    reflexivity.
  - rewrite (bool_decide_eq_false_2 _ Hr). reflexivity.
Qed.

End Further.

(** The label [log] tags its emissions with: the class name of the worker
    left-aligned in ten columns, a space, and the process id
    right-aligned in six.  It is 17 characters wide as long as the
    process id prints in at most six characters; a longer process id is
    never cut, the label grows instead. *)
Theorem system_label_width cls p :
  length (system_label (LOGNAME cls) p)
  = (11 + Nat.max 6 (length (str_of_int p)))%nat
  /\ drop (length (system_label (LOGNAME cls) p) - length (str_of_int p))
       (system_label (LOGNAME cls) p) = str_of_int p
  /\ take (length (LOGNAME cls)) (system_label (LOGNAME cls) p) = LOGNAME cls.
Proof.
  unfold system_label, ljust, rjust.
  assert (Hname : (length (LOGNAME cls) <= 10)%nat)
    by (destruct cls; vm_compute; lia).
  split; [|split].
  - rewrite !length_app, !length_replicate. simpl. lia.
  - rewrite !app_assoc. rewrite drop_app_length'; [reflexivity|].
    rewrite !length_app, !length_replicate. simpl. lia.
  - rewrite <- !app_assoc. now rewrite take_app_length.
Qed.

(** ** Plain text *)

Lemma lstrip_head s c : head (lstrip s) = Some c -> is_space c = false.
Proof.
  induction s as [|a s IH]; simpl; [discriminate|].
  destruct (is_space a) eqn:Ha; [exact IH|].
  simpl. intros H. now inversion H; subst.
Qed.

Lemma lstrip_drop s : exists n, (n <= length s)%nat /\ lstrip s = drop n s.
Proof.
  induction s as [|a s (n & Hn & IH)]; simpl.
  - exists 0%nat. split; [lia|reflexivity].
  - destruct (is_space a).
    + exists (S n). split; [lia|exact IH].
    + exists 0%nat. split; [lia|reflexivity].
Qed.

Lemma strip_trimmed s : strip s ≠ [] -> trimmed (strip s).
Proof.
  unfold strip. intros Hne. split; [exact Hne|]. split.
  - destruct (lstrip_drop (rev (lstrip s))) as (n & Hn & Hd).
    rewrite Hd in *. rewrite skipn_rev, rev_involutive in *.
    intros c Hc. apply (lstrip_head s).
    destruct (lstrip s) as [|a l]; [now rewrite take_nil in Hne|].
    destruct (length (a :: l) - n)%nat; [contradiction|exact Hc].
  - intros c Hc. apply (lstrip_head (rev (lstrip s))).
    destruct (lstrip (rev (lstrip s))) as [|a l]; [contradiction|].
    simpl in Hc. rewrite last_snoc in Hc. exact Hc.
Qed.

Lemma plain_rows_trimmed escape_formatting os_linesep t :
  Forall trimmed (plain_rows escape_formatting os_linesep t).
Proof.
  unfold plain_rows. apply Forall_forall. intros row Hrow.
  apply list_elem_of_filter in Hrow as [Hne Hin].
  apply list_elem_of_fmap in Hin as (raw & -> & _).
  now apply strip_trimmed.
Qed.

Lemma foldl_deliver_line_sink system rows w :
  sink (foldl (deliver_line system) w rows)
  = sink w ++ map (line_emission system) rows.
Proof.
  revert w. induction rows as [|row rows IH]; intros w; simpl.
  - now rewrite app_nil_r.
  - rewrite IH. simpl. now rewrite <- app_assoc.
Qed.

Lemma foldl_deliver_line_bus system rows w :
  _log_topic (self w) ≠ [] ->
  bus (foldl (deliver_line system) w rows)
  = bus w ++ map (line_publication (_log_topic (self w))) rows.
Proof.
  intros Ht. revert w Ht. induction rows as [|row rows IH]; intros w Ht; simpl.
  - now rewrite app_nil_r.
  - rewrite IH by exact Ht. simpl.
    rewrite bool_decide_eq_true_2 by exact Ht. now rewrite <- app_assoc.
Qed.

Lemma foldl_deliver_line_bus_silent system rows w :
  _log_topic (self w) = [] ->
  bus (foldl (deliver_line system) w rows) = bus w.
Proof.
  intros Ht. revert w Ht. induction rows as [|row rows IH]; intros w Ht;
    [reflexivity|].
  simpl. rewrite IH by exact Ht. simpl.
  now rewrite bool_decide_eq_false_2 by (intros H; now apply H).
Qed.

Lemma foldl_deliver_line_heap system rows w :
  heap (foldl (deliver_line system) w rows)
  = alter (fun o => foldl (fun o row => seq_append (PStr row) o) o rows)
      (_log_entries (self w)) (heap w).
Proof.
  revert w. induction rows as [|row rows IH]; intros w; simpl.
  - symmetry. now apply list_alter_id.
  - rewrite IH. simpl. now rewrite list_alter_alter_eq.
Qed.

(** ** ASCII bytes *)

Lemma decode_utf8_ascii bs :
  is_ascii bs -> decode_utf8 bs = Some (map Byte.to_N bs).
Proof.
  unfold decode_utf8. induction 1 as [|b bs Hb _ IH]; [reflexivity|].
  simpl. apply N.ltb_lt in Hb. rewrite Hb, IH. reflexivity.
Qed.

Lemma is_ascii_checked bs :
  forallb (fun b => (Byte.to_N b <? 128)%N) bs = true -> is_ascii bs.
Proof.
  induction bs as [|b bs IH]; simpl; [constructor|].
  intros H. apply andb_true_iff in H as [Hb Hbs].
  constructor; [now apply N.ltb_lt|now apply IH].
Qed.

Lemma all_ascii_checked l :
  forallb (forallb (fun b => (Byte.to_N b <? 128)%N)) l = true ->
  Forall is_ascii l.
Proof.
  induction l as [|bs l IH]; simpl; [constructor|].
  intros H. apply andb_true_iff in H as [Hb Hl].
  constructor; [now apply is_ascii_checked|now apply IH].
Qed.

Section FurtherStructured.

Variable cb_logging_aware : text.
Variable record_separator : char.
Variable escape_formatting : text -> text.
Variable os_linesep : text.
Variable json_loads : text -> option pyval.
Variable repr_text : text -> text.

Abbreviation Log' :=
  (log cb_logging_aware record_separator escape_formatting os_linesep
     json_loads repr_text).
Abbreviation Decode' := (decode_record escape_formatting json_loads).
Abbreviation Drain' := (drain record_separator escape_formatting json_loads).

(** In PlainText mode a chunk of the cooperative channel is passed
    through [escape_formatting], cut at the line separator, and every
    line is stripped; the lines left non-empty, in their order, are each
    emitted at level info, appended to the history and published.  No
    entry is empty or starts or ends with white space, and the decoder
    state does not change. *)
Theorem plain_text_lines fd d t w p :
  fd ∈ _log_fds (self w) -> fd ≠ 1 ->
  pid (self w) = Some p ->
  _log_rich (self w) = Some false ->
  data_text d = Some t ->
  let system := system_label (LOGNAME (class_ (self w))) p in
  let rows := plain_rows escape_formatting os_linesep t in
  exists w',
    Log' fd d w = (Done tt, w')
    /\ Forall trimmed rows
    /\ sink w' = sink w ++ map (line_emission system) rows
    /\ heap w'
       = alter (fun o => foldl (fun o row => seq_append (PStr row) o) o rows)
           (_log_entries (self w)) (heap w)
    /\ (_log_topic (self w) ≠ [] ->
        bus w' = bus w ++ map (line_publication (_log_topic (self w))) rows)
    /\ (_log_topic (self w) = [] -> bus w' = bus w)
    /\ self w' = self w.
Proof.
  intros Hfd Hne Hpid Hrich Hd system rows.
  eexists. split.
  - rewrite (log_decoded _ _ _ _ _ _ fd d t w Hne Hd).
    now apply (log_plain_mode _ _ _ _ _ _ fd t w p).
  - fold system rows. split; [apply plain_rows_trimmed|].
    split; [apply foldl_deliver_line_sink|].
    split; [apply foldl_deliver_line_heap|].
    split; [apply foldl_deliver_line_bus|].
    split; [apply foldl_deliver_line_bus_silent|].
    apply foldl_deliver_line_self.
Qed.

Lemma drain_shape system rs t w :
  exists evs d,
    snd (Drain' system rs t w)
    = world_with_self (with_log_data d) (foldl (deliver system) w evs).
Proof.
  revert w. induction rs as [|r rs IH]; intros w.
  - exists [], (_log_data (self w)). simpl.
    destruct w as [p h s b]. now destruct p.
  - simpl. unfold mbind, M_bind, set_self. simpl.
    rewrite log_rich_event_decode.
    destruct (decode_record escape_formatting json_loads r) as [ev|e|].
    + match goal with |- context [Drain' system rs t ?w1] =>
        destruct (IH w1) as (evs & d & Hw) end.
      exists (ev :: evs), d. rewrite Hw. simpl.
      exact (deliver_chain system d _ evs (deliver system w ev)).
    + exists [], (Some (frames record_separator rs ++ t)). reflexivity.
    + exists [], (Some (frames record_separator rs ++ t)). reflexivity.
Qed.

(** On the cooperative channel of a worker that has a topic, whatever the
    mode and whether the call returns or raises, what a call of [log]
    publishes is what it emits to the logger: one publication on the
    topic of the worker for each emission, in the same order and with
    the emitted text as payload. *)
Theorem published_is_what_was_emitted fd d w :
  fd ≠ 1 ->
  _log_topic (self w) ≠ [] ->
  let w' := snd (log cb_logging_aware record_separator escape_formatting
                   os_linesep json_loads repr_text fd d w) in
  exists ems pubs,
    sink w' = sink w ++ ems
    /\ bus w' = bus w ++ pubs
    /\ map pub_payload pubs = map em_format ems
    /\ Forall (fun pb => pub_topic pb = _log_topic (self w)) pubs.
Proof.
  intros Hne Htopic w'. unfold w'. clear w'.
  assert (Hnil : forall w', sink w' = sink w -> bus w' = bus w ->
            exists ems pubs,
              sink w' = sink w ++ ems /\ bus w' = bus w ++ pubs
              /\ map pub_payload pubs = map em_format ems
              /\ Forall (fun pb => pub_topic pb = _log_topic (self w)) pubs).
  { intros w' Hs Hb. exists [], []. rewrite !app_nil_r. auto. }
  assert (Hrows : forall system rows w0,
            sink w0 = sink w -> bus w0 = bus w ->
            _log_topic (self w0) = _log_topic (self w) ->
            let w' := foldl (deliver_line system) w0 rows in
            exists ems pubs,
              sink w' = sink w ++ ems /\ bus w' = bus w ++ pubs
              /\ map pub_payload pubs = map em_format ems
              /\ Forall (fun pb => pub_topic pb = _log_topic (self w)) pubs).
  { intros system rows w0 Hs Hb Ht w'.
    exists (map (line_emission system) rows),
           (map (line_publication (_log_topic (self w))) rows).
    unfold w'. rewrite foldl_deliver_line_sink, foldl_deliver_line_bus
      by (rewrite Ht; exact Htopic).
    rewrite Hs, Hb, Ht, !map_map. simpl. repeat split.
    apply Forall_forall. intros pb Hin.
    apply list_elem_of_fmap in Hin as (row & -> & _). reflexivity. }
  destruct (log_cases cb_logging_aware record_separator escape_formatting
              os_linesep json_loads repr_text fd d w)
    as [[e He]|[(p & -> & _)|(p & t & Hfd & _ & Hpid & Ht)]];
    [rewrite He; now apply Hnil|contradiction|].
  rewrite Ht. destruct (_log_rich (self w)) as [[|]|] eqn:Hrich.
  - destruct (_log_data (self w)) as [buf|] eqn:Hbuf.
    + rewrite (log_structured _ _ _ _ _ _ fd t w p buf) by assumption.
      match goal with |- context [Drain' ?s ?rs ?tl ?w1] =>
        destruct (drain_shape s rs tl w1) as (evs & dd & Hw);
        set (system := s) in * end.
      rewrite Hw, deliver_chain. simpl.
      exists (map (emission_of system) evs),
             (map (publication_of (_log_topic (self w))) evs).
      rewrite foldl_deliver_sink, (foldl_deliver_bus system evs _ Htopic).
      simpl. rewrite !map_map. simpl. repeat split.
      apply Forall_forall. intros pb Hin.
      apply list_elem_of_fmap in Hin as (ev & -> & _). reflexivity.
    + rewrite (log_structured_no_buffer _ _ _ _ _ _ fd t w p) by assumption.
      now apply Hnil.
  - rewrite (log_plain_mode _ _ _ _ _ _ fd t w p) by assumption.
    now apply Hrows.
  - destruct (decide (take (length cb_logging_aware) t = cb_logging_aware)).
    + rewrite (log_marker _ _ _ _ _ _ fd t w p) by assumption.
      now apply Hnil.
    + rewrite (log_first_plain _ _ _ _ _ _ fd t w p) by assumption.
      now apply Hrows.
Qed.

End FurtherStructured.

(** ** Records that cannot be delivered *)

Lemma dict_has_extras k d :
  k ≠ txt "text" -> k ≠ txt "namespace" -> k ≠ txt "level" ->
  dict_has k (extras d) = dict_has k d.
Proof.
  intros H1 H2 H3. unfold dict_has, extras.
  now rewrite !dict_get_del_ne by assumption.
Qed.

Section Failures.

Variable cb_logging_aware : text.
Variable record_separator : char.
Variable escape_formatting : text -> text.
Variable os_linesep : text.
Variable json_loads : text -> option pyval.
Variable repr_text : text -> text.

Abbreviation Log4 :=
  (log cb_logging_aware record_separator escape_formatting os_linesep
     json_loads repr_text).
Abbreviation Decode4 := (decode_record escape_formatting json_loads).

Lemma log_raised_frames fd d t w p buf good evs r e more tail :
  fd ∈ _log_fds (self w) -> fd ≠ 1 ->
  pid (self w) = Some p ->
  _log_rich (self w) = Some true ->
  _log_data (self w) = Some buf ->
  data_text d = Some t ->
  buf ++ t = frames record_separator (good ++ r :: more) ++ tail ->
  Forall (fun r => str_contains record_separator r = false)
    (good ++ r :: more) ->
  str_contains record_separator tail = false ->
  Forall2 (well_formed json_loads) good evs ->
  Decode4 r = Raised e ->
  Log4 fd d w
  = (Raised e,
     world_with_self
       (with_log_data (Some (frames record_separator more ++ tail)))
       (foldl (deliver (system_label (LOGNAME (class_ (self w))) p)) w evs)).
Proof.
  intros Hfd Hne Hpid Hrich Hbuf Hd Hstream Hrs Htail Hgood Hr.
  rewrite (log_decoded _ _ _ _ _ _ fd d t w Hne Hd).
  apply (log_structured_raised _ _ _ _ _ _ fd t w p buf good evs r);
    try assumption.
  - rewrite Hstream. now apply split_all_frames.
  - eapply Forall2_impl; [exact Hgood|].
    intros r0 ev0. apply well_formed_decodes.
Qed.


(** In Structured mode a record that is a JSON object with [text] and a
    level that resolves, but which also has a key [log_system] or
    [cb_namespace], makes [log] raise [TypeError]: the key collides with
    a keyword [log] itself passes to the logger.  The records before it
    have been delivered; the record itself is dropped without emission,
    entry or publication, and what follows it stays in the buffer. *)
Theorem colliding_key_raises
    fd d t w p buf good evs r more tail dct tv lv level :
  fd ∈ _log_fds (self w) -> fd ≠ 1 ->
  pid (self w) = Some p ->
  _log_rich (self w) = Some true ->
  _log_data (self w) = Some buf ->
  data_text d = Some t ->
  buf ++ t = frames record_separator (good ++ r :: more) ++ tail ->
  Forall (fun r => str_contains record_separator r = false)
    (good ++ r :: more) ->
  str_contains record_separator tail = false ->
  Forall2 (well_formed json_loads) good evs ->
  json_loads r = Some (PDict dct) ->
  dict_get (txt "text") dct = Some tv ->
  dict_get (txt "level") dct = Some lv ->
  levelWithName lv = Done level ->
  dict_has (txt "log_system") dct = true
  \/ dict_has (txt "cb_namespace") dct = true ->
  let system := system_label (LOGNAME (class_ (self w))) p in
  exists w',
    Log4 fd d w = (Raised TypeError, w')
    /\ sink w' = sink w ++ map (emission_of system) evs
    /\ heap w' = heap (foldl (deliver system) w evs)
    /\ bus w' = bus (foldl (deliver system) w evs)
    /\ _log_data (self w') = Some (frames record_separator more ++ tail).
Proof.
  intros Hfd Hne Hpid Hrich Hbuf Hd Hstream Hrs Htail Hgood Hr Ht Hl Hlv Hkey
    system.
  eexists. split.
  - apply (log_raised_frames fd d t w p buf good evs r TypeError more tail);
      try assumption.
    rewrite (decode_record_object _ _ r dct tv lv Hr Ht Hl), Hlv.
    rewrite !dict_has_extras by discriminate.
    destruct Hkey as [-> | ->]; [reflexivity|].
    now rewrite orb_true_r.
  - simpl. rewrite foldl_deliver_sink. auto.
Qed.

(** In Structured mode a record that is JSON but not a JSON object (a
    number, a string, a list, [true], [null]) makes [log] raise: it has
    no [pop] that takes a key.  A list raises [TypeError], anything else
    [AttributeError].  Nothing is emitted, appended or published for the
    record, and what follows it stays in the buffer. *)
Theorem non_object_record_raises
    fd d t w p buf good evs r more tail v :
  fd ∈ _log_fds (self w) -> fd ≠ 1 ->
  pid (self w) = Some p ->
  _log_rich (self w) = Some true ->
  _log_data (self w) = Some buf ->
  data_text d = Some t ->
  buf ++ t = frames record_separator (good ++ r :: more) ++ tail ->
  Forall (fun r => str_contains record_separator r = false)
    (good ++ r :: more) ->
  str_contains record_separator tail = false ->
  Forall2 (well_formed json_loads) good evs ->
  json_loads r = Some v ->
  (forall dct, v ≠ PDict dct) ->
  let system := system_label (LOGNAME (class_ (self w))) p in
  let e := match v with PList _ => TypeError | _ => AttributeError end in
  exists w',
    Log4 fd d w = (Raised e, w')
    /\ sink w' = sink w ++ map (emission_of system) evs
    /\ heap w' = heap (foldl (deliver system) w evs)
    /\ bus w' = bus (foldl (deliver system) w evs)
    /\ _log_data (self w') = Some (frames record_separator more ++ tail).
Proof.
  intros Hfd Hne Hpid Hrich Hbuf Hd Hstream Hrs Htail Hgood Hr Hv system e.
  eexists. split.
  - apply (log_raised_frames fd d t w p buf good evs r e more tail);
      try assumption.
    unfold decode_record. rewrite Hr. unfold e.
    destruct v; try reflexivity. now destruct (Hv d0).
  - simpl. rewrite foldl_deliver_sink. auto.
Qed.

(** In Structured mode, chunks of bytes that are all ASCII can be cut
    anywhere: whatever the cuts, the calls of [log] on them return and
    deliver the well-formed records of the stream in order, leaving the
    trailing fragment in the buffer. *)
Theorem ascii_bytes_can_be_cut_anywhere
    fd (chunks : list (list byte)) w p buf rs evs tail :
  fd ∈ _log_fds (self w) -> fd ≠ 1 ->
  pid (self w) = Some p ->
  _log_rich (self w) = Some true ->
  _log_data (self w) = Some buf ->
  str_contains record_separator buf = false ->
  Forall is_ascii chunks ->
  buf ++ map Byte.to_N (concat chunks) = frames record_separator rs ++ tail ->
  Forall (fun r => str_contains record_separator r = false) rs ->
  str_contains record_separator tail = false ->
  Forall2 (well_formed json_loads) rs evs ->
  let system := system_label (LOGNAME (class_ (self w))) p in
  exists w',
    for_each (map Bytes chunks) (Log4 fd) w = (Done tt, w')
    /\ sink w' = sink w ++ map (emission_of system) evs
    /\ length evs = length rs
    /\ _log_data (self w') = Some tail.
Proof.
  intros Hfd Hne Hpid Hrich Hbuf Hclean Hascii Hstream Hrs Htail Hwf system.
  eexists. split; [|split; [|split]].
  - apply (log_chunks_decoded _ _ _ _ _ _ fd p (map Bytes chunks)
             (map (map Byte.to_N) chunks) Hne) with (buf := buf) (rs := rs);
      try assumption.
    + clear -Hascii. induction Hascii as [|c chunks Hc _ IH]; constructor.
      * simpl. now apply decode_utf8_ascii.
      * exact IH.
    + rewrite <- concat_map, Hstream. now apply split_all_frames.
    + eapply Forall2_impl; [exact Hwf|].
      intros r0 ev0. apply well_formed_decodes.
  - simpl. now rewrite foldl_deliver_sink.
  - symmetry. eapply Forall2_length. exact Hwf.
  - reflexivity.
Qed.

End Failures.

(** ** The register-me resource *)

Lemma bytes_join_snoc sep l x :
  l ≠ [] ->
  RegisterMe.bytes_join sep (l ++ [x])
  = RegisterMe.bytes_join sep l ++ sep ++ x.
Proof.
  induction l as [|a l IH]; [contradiction|]. intros _.
  destruct l as [|b l]; [reflexivity|].
  change (RegisterMe.bytes_join sep ((a :: b :: l) ++ [x]))
    with (a ++ sep ++ RegisterMe.bytes_join sep ((b :: l) ++ [x])).
  rewrite IH by discriminate.
  change (RegisterMe.bytes_join sep (a :: b :: l))
    with (a ++ sep ++ RegisterMe.bytes_join sep (b :: l)).
  now rewrite <- !app_assoc.
Qed.

Lemma bytes_join_ascii l :
  Forall is_ascii l -> is_ascii (RegisterMe.bytes_join [x2f] l).
Proof.
  induction 1 as [|a l Ha Hl IH]; [constructor|].
  destruct l as [|b l]; [exact Ha|].
  change (is_ascii (a ++ [x2f] ++ RegisterMe.bytes_join [x2f] (b :: l))).
  apply Forall_app. split; [exact Ha|].
  apply Forall_cons. split; [vm_compute; reflexivity|exact IH].
Qed.

Lemma to_N_slash b : Byte.to_N b = 47%N -> b = x2f.
Proof. destruct b; vm_compute; congruence. Qed.

(** Below the register-me resource every URL that ends with a slash, the
    URL of the resource itself among them, is answered by the resource:
    [getChild] returns [self] whenever the last segment is empty,
    whatever ASCII segments come before it. *)
Theorem trailing_slash_is_served path postpath :
  Forall is_ascii ([path] ++ postpath) ->
  last ([path] ++ postpath) = Some [] ->
  RegisterMe.getChild path postpath = Done RegisterMe.Self.
Proof.
  intros Hascii Hlast. unfold RegisterMe.getChild.
  apply last_Some in Hlast as [l Hl]. rewrite Hl in *.
  rewrite (decode_utf8_ascii _ (bytes_join_ascii _ Hascii)).
  destruct l as [|a l]; [reflexivity|].
  rewrite bytes_join_snoc by discriminate.
  rewrite app_nil_r, map_app.
  change (map Byte.to_N [x2f]) with [47%N].
  unfold RegisterMe.endswith. rewrite last_snoc.
  rewrite (bool_decide_eq_true_2 (Some 47%N = Some 47%N)) by reflexivity.
  now rewrite orb_true_r.
Qed.

(** A URL with more than one segment that does not end with a slash is
    never answered by the register-me resource: [register/x] or
    [a/register] go to [Resource.getChild].  Only the one-segment names
    can be the page. *)
Theorem deeper_path_is_delegated path postpath seg :
  Forall is_ascii ([path] ++ postpath) ->
  postpath ≠ [] ->
  last postpath = Some seg ->
  seg ≠ [] ->
  last seg ≠ Some x2f ->
  RegisterMe.getChild path postpath = Done RegisterMe.ResourceGetChild.
Proof.
  intros Hascii Hne Hlast Hseg Hslash. unfold RegisterMe.getChild.
  rewrite (decode_utf8_ascii _ (bytes_join_ascii _ Hascii)).
  apply last_Some in Hlast as [l ->].
  change ([path] ++ l ++ [seg]) with ((path :: l) ++ [seg]).
  rewrite bytes_join_snoc by discriminate.
  set (pre := RegisterMe.bytes_join [x2f] (path :: l)).
  rewrite !map_app. change (map Byte.to_N [x2f]) with [47%N].
  set (T := map Byte.to_N pre ++ [47%N] ++ map Byte.to_N seg).
  assert (Hslash_in : 47%N ∈ T)
    by (unfold T; rewrite !elem_of_app, elem_of_cons; auto).
  assert (H1 : T ≠ []) by (intros E; rewrite E in Hslash_in;
                           now apply elem_of_nil in Hslash_in).
  assert (H2 : last T ≠ Some 47%N).
  { unfold T. destruct (last_is_Some seg) as [_ Hs].
    destruct (Hs Hseg) as [b Hb].
    apply last_Some in Hb as [s' ->].
    rewrite map_app, !app_assoc. simpl. rewrite last_snoc.
    intros E. inversion E as [E']. apply to_N_slash in E'. subst b.
    apply Hslash. now rewrite last_snoc. }
  assert (H3 : T ∉ [txt "register"; txt "register.html"]).
  { intros Hin. apply elem_of_cons in Hin as [E|Hin].
    - rewrite E in Hslash_in. vm_compute in Hslash_in.
      repeat (apply elem_of_cons in Hslash_in as [?|Hslash_in];
              [discriminate|]).
      now apply elem_of_nil in Hslash_in.
    - apply elem_of_cons in Hin as [E|Hin];
        [|now apply elem_of_nil in Hin].
      rewrite E in Hslash_in. vm_compute in Hslash_in.
      repeat (apply elem_of_cons in Hslash_in as [?|Hslash_in];
              [discriminate|]).
      now apply elem_of_nil in Hslash_in. }
  unfold RegisterMe.endswith.
  rewrite (bool_decide_eq_false_2 _ H1), (bool_decide_eq_false_2 _ H2),
    (bool_decide_eq_false_2 _ H3).
  reflexivity.
Qed.

(** ** The hypotheses of the further properties hold on the samples *)

Lemma unknown_channel_is_refused_witness :
  Sample.log 3 (Bytes [x68])
    (after_logs Sample.cb_logging_aware Sample.record_separator
       Sample.escape_formatting Sample.os_linesep Sample.json_loads
       Sample.repr_text [(1, Bytes [x68])] Sample.spawned)
  = (Raised AssertionError,
     after_logs Sample.cb_logging_aware Sample.record_separator
       Sample.escape_formatting Sample.os_linesep Sample.json_loads
       Sample.repr_text [(1, Bytes [x68])] Sample.spawned).
Proof.
  apply (unknown_channel_is_refused Sample.cb_logging_aware
           Sample.record_separator Sample.escape_formatting
           Sample.os_linesep Sample.json_loads Sample.repr_text
           RouterWorkerProcess (txt "n1") (txt "w1") (txt "me") None
           (Some 4711) [(1, Bytes [x68])] 3 (Bytes [x68])); lia.
Defined.

Lemma exit_without_remainder_is_silent_witness :
  _log_rich (self Sample2.plain) ≠ Some true
  /\ Sample.exit_fire (Success PNone) Sample2.plain
     = (Done (Success PNone), world_with_self (with_exit fired) Sample2.plain).
Proof.
  assert (H : _log_rich (self Sample2.plain) ≠ Some true)
    by (vm_compute; discriminate).
  split; [exact H|].
  apply (exit_without_remainder_is_silent Sample.escape_formatting
           Sample.os_linesep (Success PNone) Sample2.plain eq_refl).
  left. exact H.
Defined.

Lemma plain_text_lines_witness :
  2 ∈ _log_fds (self Sample2.plain)
  /\ _log_rich (self Sample2.plain) = Some false
  /\ plain_rows Sample.escape_formatting Sample.os_linesep
       (txt " foo " ++ [10; 10]%N ++ txt "bar" ++ [10]%N)
     = [txt "foo"; txt "bar"]
  /\ exists w',
       Sample.log 2 (Text (txt " foo " ++ [10; 10]%N ++ txt "bar" ++ [10]%N))
         Sample2.plain
       = (Done tt, w')
       /\ sink w'
          = sink Sample2.plain
            ++ map (line_emission (txt "Router       4711"))
                 [txt "foo"; txt "bar"]
       /\ bus w'
          = bus Sample2.plain
            ++ map (line_publication Sample.topic) [txt "foo"; txt "bar"].
Proof.
  assert (Hfd : 2 ∈ _log_fds (self Sample2.plain))
    by (vm_compute; repeat constructor).
  split; [exact Hfd|]. split; [reflexivity|]. split; [reflexivity|].
  destruct (plain_text_lines Sample.cb_logging_aware
              Sample.record_separator Sample.escape_formatting
              Sample.os_linesep Sample.json_loads Sample.repr_text
              2 (Text (txt " foo " ++ [10; 10]%N ++ txt "bar" ++ [10]%N))
              (txt " foo " ++ [10; 10]%N ++ txt "bar" ++ [10]%N)
              Sample2.plain 4711 Hfd)
    as (w' & H1 & _ & H3 & _ & H5 & _);
    [lia|reflexivity|reflexivity|reflexivity|].
  exists w'. split; [exact H1|]. split; [exact H3|].
  apply H5. discriminate.
Defined.

Lemma published_is_what_was_emitted_witness :
  _log_topic (self Sample.structured) ≠ []
  /\ exists ems pubs,
       sink (snd (Sample.log 2
                    (Text (Sample.wire Sample.doc_hi
                           ++ [Sample.record_separator]
                           ++ Sample.wire Sample.doc_loud
                           ++ [Sample.record_separator]))
                    Sample.structured))
       = sink Sample.structured ++ ems
       /\ bus (snd (Sample.log 2
                      (Text (Sample.wire Sample.doc_hi
                             ++ [Sample.record_separator]
                             ++ Sample.wire Sample.doc_loud
                             ++ [Sample.record_separator]))
                      Sample.structured))
          = bus Sample.structured ++ pubs
       /\ map pub_payload pubs = map em_format ems.
Proof.
  assert (Ht : _log_topic (self Sample.structured) ≠ []) by discriminate.
  split; [exact Ht|].
  destruct (published_is_what_was_emitted Sample.cb_logging_aware
              Sample.record_separator Sample.escape_formatting
              Sample.os_linesep Sample.json_loads Sample.repr_text
              2 (Text (Sample.wire Sample.doc_hi
                       ++ [Sample.record_separator]
                       ++ Sample.wire Sample.doc_loud
                       ++ [Sample.record_separator]))
              Sample.structured) as (ems & pubs & H1 & H2 & H3 & _);
    [lia|exact Ht|].
  exists ems, pubs. split; [exact H1|]. split; [exact H2|exact H3].
Defined.

Lemma colliding_key_raises_witness :
  dict_has (txt "log_system")
    [(txt "text", PStr (txt "hi")); (txt "level", PStr (txt "info"));
     (txt "log_system", PStr (txt "mine"))] = true
  /\ exists w',
       Sample2.log 2
         (Text (Sample.wire Sample2.doc_collide ++ [Sample.record_separator]))
         Sample2.structured
       = (Raised TypeError, w')
       /\ sink w' = sink Sample2.structured ++ [].
Proof.
  split; [reflexivity|].
  assert (Hfd : 2 ∈ _log_fds (self Sample2.structured))
    by (vm_compute; repeat constructor).
  destruct (colliding_key_raises Sample.cb_logging_aware
              Sample.record_separator Sample.escape_formatting
              Sample.os_linesep Sample2.json_loads Sample.repr_text
              2
              (Text (Sample.wire Sample2.doc_collide
                     ++ [Sample.record_separator]))
              (Sample.wire Sample2.doc_collide ++ [Sample.record_separator])
              Sample2.structured 4711 [] [] []
              (Sample.wire Sample2.doc_collide) [] []
              [(txt "text", PStr (txt "hi")); (txt "level", PStr (txt "info"));
               (txt "log_system", PStr (txt "mine"))]
              (PStr (txt "hi")) (PStr (txt "info")) info Hfd)
    as (w' & H1 & H2 & _);
    [lia|reflexivity|reflexivity|reflexivity|reflexivity|reflexivity
    |repeat constructor|reflexivity|constructor
    |reflexivity|reflexivity|reflexivity|reflexivity|left; reflexivity|].
  exists w'. split; [exact H1|exact H2].
Defined.

Lemma non_object_record_raises_witness :
  Sample2.json_loads Sample2.doc_list = Some (PList [PInt 1])
  /\ (exists w',
        Sample2.log 2 (Text (Sample2.doc_list ++ [Sample.record_separator]))
          Sample2.structured
        = (Raised TypeError, w')
        /\ sink w' = sink Sample2.structured ++ []).
Proof.
  split; [reflexivity|].
  assert (Hfd : 2 ∈ _log_fds (self Sample2.structured))
    by (vm_compute; repeat constructor).
  destruct (non_object_record_raises Sample.cb_logging_aware
              Sample.record_separator Sample.escape_formatting
              Sample.os_linesep Sample2.json_loads Sample.repr_text
              2 (Text (Sample2.doc_list ++ [Sample.record_separator]))
              (Sample2.doc_list ++ [Sample.record_separator])
              Sample2.structured 4711 [] [] []
              Sample2.doc_list [] [] (PList [PInt 1]) Hfd)
    as (w' & H1 & H2 & _);
    [lia|reflexivity|reflexivity|reflexivity|reflexivity|reflexivity
    |repeat constructor|reflexivity|constructor
    |reflexivity|discriminate|].
  exists w'. split; [exact H1|exact H2].
Defined.

Lemma ascii_bytes_can_be_cut_anywhere_witness :
  Forall is_ascii
    [Sample.ascii_bytes (take 7 (Sample.wire Sample.doc_hi));
     Sample.ascii_bytes (drop 7 (Sample.wire Sample.doc_hi)
                         ++ [Sample.record_separator] ++ txt "{")]
  /\ exists w',
       for_each
         (map Bytes
            [Sample.ascii_bytes (take 7 (Sample.wire Sample.doc_hi));
             Sample.ascii_bytes (drop 7 (Sample.wire Sample.doc_hi)
                                 ++ [Sample.record_separator] ++ txt "{")])
         (Sample.log 2) Sample.structured
       = (Done tt, w')
       /\ sink w'
          = sink Sample.structured
            ++ map (emission_of (txt "Router       4711")) [Sample.ev_hi]
       /\ length [Sample.ev_hi] = length [Sample.wire Sample.doc_hi]
       /\ _log_data (self w') = Some (txt "{").
Proof.
  assert (Hascii : Forall is_ascii
            [Sample.ascii_bytes (take 7 (Sample.wire Sample.doc_hi));
             Sample.ascii_bytes (drop 7 (Sample.wire Sample.doc_hi)
                                 ++ [Sample.record_separator] ++ txt "{")])
    by (apply all_ascii_checked; vm_compute; reflexivity).
  split; [exact Hascii|].
  assert (Hfd : 2 ∈ _log_fds (self Sample.structured))
    by (vm_compute; repeat constructor).
  apply (ascii_bytes_can_be_cut_anywhere Sample.cb_logging_aware
           Sample.record_separator Sample.escape_formatting
           Sample.os_linesep Sample.json_loads Sample.repr_text
           2
           [Sample.ascii_bytes (take 7 (Sample.wire Sample.doc_hi));
            Sample.ascii_bytes (drop 7 (Sample.wire Sample.doc_hi)
                                ++ [Sample.record_separator] ++ txt "{")]
           Sample.structured 4711 []
           [Sample.wire Sample.doc_hi] [Sample.ev_hi] (txt "{") Hfd);
    [lia|reflexivity|reflexivity|reflexivity|reflexivity|exact Hascii
    |reflexivity|repeat constructor|reflexivity
    |repeat constructor; exact sample_hi_well_formed].
Defined.

Lemma trailing_slash_is_served_witness :
  last ([Sample.ascii_bytes (txt "any")] ++ [Sample.ascii_bytes (txt "where"); []])
  = Some []
  /\ RegisterMe.getChild (Sample.ascii_bytes (txt "any"))
       [Sample.ascii_bytes (txt "where"); []]
     = Done RegisterMe.Self.
Proof.
  split; [reflexivity|].
  apply trailing_slash_is_served; [|reflexivity].
  apply all_ascii_checked. vm_compute. reflexivity.
Defined.

Lemma deeper_path_is_delegated_witness :
  last (Sample.ascii_bytes (txt "x")) ≠ Some x2f
  /\ RegisterMe.getChild (Sample.ascii_bytes (txt "register"))
       [Sample.ascii_bytes (txt "x")]
     = Done RegisterMe.ResourceGetChild.
Proof.
  assert (H : last (Sample.ascii_bytes (txt "x")) ≠ Some x2f)
    by (vm_compute; discriminate).
  split; [exact H|].
  apply (deeper_path_is_delegated _ _ (Sample.ascii_bytes (txt "x")));
    [|discriminate|reflexivity|discriminate|exact H].
  apply all_ascii_checked. vm_compute. reflexivity.
Defined.

(** * The line separator *)








(** * The exit notification *)

Section ExitFlush.

Variable escape_formatting : text -> text.
Variable os_linesep : text.


End ExitFlush.



(** * What a call of [log] writes *)

Lemma decoder_only_refl p : decoder_only p p.
Proof. unfold decoder_only. now destruct p. Qed.

Lemma writes_decoder_only_refl w : writes_decoder_only w w.
Proof. apply decoder_only_refl. Qed.

Lemma writes_decoder_only_trans w1 w2 w3 :
  writes_decoder_only w1 w2 -> writes_decoder_only w2 w3 ->
  writes_decoder_only w1 w3.
Proof.
  unfold writes_decoder_only, decoder_only. intros H1 H2.
  rewrite H2 at 1. rewrite H1 at 1. now destruct (self w1).
Qed.

Lemma decoder_only_set_log_rich b :
  preserves writes_decoder_only (set_self (with_log_rich b)).
Proof.
  intros w. unfold writes_decoder_only, decoder_only. simpl.
  now destruct (self w).
Qed.

Lemma decoder_only_set_log_data d :
  preserves writes_decoder_only (set_self (with_log_data d)).
Proof.
  intros w. unfold writes_decoder_only, decoder_only. simpl.
  now destruct (self w).
Qed.

Lemma decoder_only_entries_append x :
  preserves writes_decoder_only (entries_append x).
Proof. intros w. apply decoder_only_refl. Qed.

Lemma decoder_only_logger_emit level format kwargs :
  preserves writes_decoder_only (logger_emit level format kwargs).
Proof. intros w. apply decoder_only_refl. Qed.

Lemma decoder_only_publish topic payload :
  preserves writes_decoder_only (publish topic payload).
Proof. intros w. apply decoder_only_refl. Qed.

Create HintDb decoder.

#[local] Hint Resolve writes_decoder_only_refl decoder_only_set_log_rich
  decoder_only_set_log_data decoder_only_entries_append
  decoder_only_logger_emit decoder_only_publish
  preserves_get preserves_ret preserves_raise preserves_out_of_fuel
  preserves_pure : decoder.

Ltac decoder_step :=
  match goal with
  | |- preserves _ (_ ≫= _) =>
      apply (preserves_bind writes_decoder_only writes_decoder_only_trans);
      [|intros]
  | |- preserves _ (for_each _ _) =>
      apply (preserves_for_each writes_decoder_only _ _
               writes_decoder_only_refl writes_decoder_only_trans); intros
  | |- preserves _ (if ?b then _ else _) => destruct b
  | |- preserves _ (match ?x with _ => _ end) => destruct x
  | |- preserves _ (let '(_, _) := ?x in _) => destruct x
  | |- preserves _ _ => solve [auto with decoder]
  end.

Section Writes.

Variable cb_logging_aware : text.
Variable record_separator : char.
Variable escape_formatting : text -> text.
Variable os_linesep : text.
Variable json_loads : text -> option pyval.
Variable repr_text : text -> text.

Lemma decoder_only_log_rich_loop fuel system :
  preserves writes_decoder_only
    (log_rich_loop record_separator escape_formatting json_loads fuel system).
Proof.
  induction fuel as [|fuel IH].
  - apply preserves_out_of_fuel, writes_decoder_only_refl.
  - unfold log_rich_loop.
    fold (log_rich_loop record_separator escape_formatting json_loads).
    unfold get_log_data, log_rich_event. repeat decoder_step; exact IH.
Qed.

Lemma decoder_only_log fd data :
  preserves writes_decoder_only
    (log cb_logging_aware record_separator escape_formatting os_linesep
       json_loads repr_text fd data).
Proof.
  unfold log, log_plain, plain_row, get_log_data.
  repeat decoder_step; apply decoder_only_log_rich_loop.
Qed.

Lemma decoder_only_after_logs calls w :
  writes_decoder_only w
    (after_logs cb_logging_aware record_separator escape_formatting
       os_linesep json_loads repr_text calls w).
Proof.
  revert w. induction calls as [|[fd d] calls IH]; intros w; simpl.
  - apply writes_decoder_only_refl.
  - eapply writes_decoder_only_trans; [apply decoder_only_log|apply IH].
Qed.

(** Of the attributes of the worker, a sequence of calls of [log] writes
    the decoder state only: after the calls every attribute but
    [_log_rich] and [_log_data] is what it was, whatever the channels, the
    data and the outcomes.  The calls allocate nothing and leave every
    object of the heap but the history as it was. *)
Theorem log_touches_decoder_and_history_only calls w :
  let w' := after_logs cb_logging_aware record_separator escape_formatting
              os_linesep json_loads repr_text calls w in
  self w' = with_log_data (_log_data (self w'))
              (with_log_rich (_log_rich (self w')) (self w))
  /\ length (heap w') = length (heap w)
  /\ (forall r, r ≠ _log_entries (self w) -> heap w' !! r = heap w !! r).
Proof.
  intros w'. split; [apply decoder_only_after_logs|].
  destruct (after_logs_frame cb_logging_aware record_separator
              escape_formatting os_linesep json_loads repr_text calls w)
    as (_ & _ & _ & _ & _ & _ & _ & Hlen & Hother).
  split; [exact Hlen|exact Hother].
Qed.


End Writes.

